(** * bilingua: the JNI bridge of [src/jvm.cpp]

    A shallow embedding of the bridge between native code and an embedded
    Java virtual machine: type descriptors and signature strings, the
    finder builders, the scoped thread attachment [JNI::Env], the [Jvm]
    singleton with its creation, lookup and invocation entry points, and
    the translation of pending Java exceptions.

    The virtual machine itself is foreign code.  It is represented by the
    sequence of native calls that the bridge issues, and by a reply
    function that decides, from the calls seen so far, what each native
    call answers.  Every statement below holds for every reply function. *)

From Stdlib Require Import ZArith List String Bool Lia.
Import ListNotations.

Local Open Scope string_scope.
Local Open Scope Z_scope.

(** ** Handles of the native interface

    [jobject], [jclass], [jmethodID] and [jfieldID] are pointers that the
    bridge only stores, compares with [NULL] and hands back. *)

Definition jobject := Z.
Definition jclass := Z.
Definition jmethodID := Z.
Definition jfieldID := Z.
Definition NULL : Z := 0.

(** Result codes of [jni.h]. *)
Definition JNI_OK : Z := 0.
Definition JNI_ERR : Z := -1.
Definition JNI_EDETACHED : Z := -2.
Definition JNI_EVERSION : Z := -3.
Definition JNI_ENOMEM : Z := -4.
Definition JNI_EEXIST : Z := -5.
Definition JNI_EINVAL : Z := -6.

(** ** Type descriptors: [Jvm::Class] *)

Record Class : Type := mkClass { name : string; native : bool }.

Module ClassOps.

(** Modelled from the spec: the default value of the second argument of
    the constructor [Class(const std::string&, bool)] is declared in
    [jvm.hpp], which is not among the sources.  The spec says that the
    descriptors built from the single-letter codes are the primitive
    ones. *)
Definition default_native : bool := true.

Definition named (n : string) : Class := mkClass n false.

Definition VOID : Class := mkClass "V" default_native.
Definition BOOLEAN : Class := mkClass "Z" default_native.
Definition BYTE : Class := mkClass "B" default_native.
Definition CHAR : Class := mkClass "C" default_native.
Definition SHORT : Class := mkClass "S" default_native.
Definition INT : Class := mkClass "I" default_native.
Definition LONG : Class := mkClass "J" default_native.
Definition FLAOT : Class := mkClass "F" default_native.
Definition DOUBLE : Class := mkClass "D" default_native.
Definition STRING : Class := named "java/lang/String".

Definition arrayOf (c : Class) : Class := mkClass ("[" ++ name c) (native c).

Definition signature (c : Class) : string :=
  if native c then name c else "L" ++ name c ++ ";".

End ClassOps.

(** ** Finders, signatures and member handles *)

Record ConstructorFinder : Type :=
  mkConstructorFinder { cf_clazz : Class; cf_parameters : list Class }.

Record MethodFinder : Type :=
  mkMethodFinder { mf_clazz : Class; mf_name : string; mf_parameters : list Class }.

Record MethodSignature : Type :=
  mkMethodSignature {
    ms_clazz : Class;
    ms_name : string;
    ms_returnType : Class;
    ms_parameters : list Class }.

Record Constructor : Type := mkConstructor { ctor_clazz : Class; ctor_id : jmethodID }.
Record Method : Type := mkMethod { method_clazz : Class; method_id : jmethodID }.
Record Field : Type := mkField { field_clazz : Class; field_id : jfieldID }.

Module Finder.

(** [Class::constructor] and [ConstructorFinder::parameter].  In the source
    [parameter] pushes onto the receiver and returns a reference to it;
    [ctor_parameter f c] and [parameter f type] below are the receiver after
    the call, as a value.  [FinderStore] has the method finders as objects
    in a store, changed in place through the reference that the call
    returns. *)
Definition constructor (c : Class) : ConstructorFinder := mkConstructorFinder c [].

Definition ctor_parameter (f : ConstructorFinder) (c : Class) : ConstructorFinder :=
  mkConstructorFinder (cf_clazz f) (cf_parameters f ++ [c]).

(** [Class::method], [MethodFinder::parameter], [MethodFinder::returns]. *)
Definition method (c : Class) (n : string) : MethodFinder := mkMethodFinder c n [].

Definition parameter (f : MethodFinder) (type : Class) : MethodFinder :=
  mkMethodFinder (mf_clazz f) (mf_name f) (mf_parameters f ++ [type]).

Definition returns (f : MethodFinder) (returnType : Class) : MethodSignature :=
  mkMethodSignature (mf_clazz f) (mf_name f) returnType (mf_parameters f).

End Finder.

(** The signature that a method finder leads to: the parameters given to
    [parameter], in that order, and the type given to [returns]. *)
Definition built (c : Class) (n : string) (ps : list Class) (r : Class) : MethodSignature :=
  Finder.returns (fold_left Finder.parameter ps (Finder.method c n)) r.

(** The string that the private [Jvm::findMethod] accumulates in its
    [std::ostringstream signature]: an opening parenthesis, one fragment per
    argument type in the order of the loop, then the closing parenthesis and
    the fragment of the return type. *)
Definition signature_stream (returnType : Class) (argTypes : list Class) : string :=
  let s := "(" in
  let s := fold_left (fun acc type => acc ++ ClassOps.signature type) argTypes s in
  (s ++ ")") ++ ClassOps.signature returnType.


(** ** The native interface

    The result categories of the invocation and field entry points: one
    template specialization exists per category. *)

Inductive ValueKind : Type :=
  TObject | TBoolean | TChar | TShort | TInt | TLong | TFloat | TDouble.

Inductive Kind : Type := KVoid | KValue (t : ValueKind).

(** The arguments of a variadic call, as raw machine values. *)
Definition va_list := list Z.

(** The native functions that the bridge calls, with their arguments.
    [CallMethodV k], [CallStaticMethodV k] and [GetStaticField t] stand for
    the family [Call<K>MethodV], [CallStatic<K>MethodV] and
    [GetStatic<T>Field]. *)
Inductive NativeCall : Type :=
| JNI_CreateJavaVM (options : list string) (version : Z)
| GetEnv (version : Z)
| AttachCurrentThread
| AttachCurrentThreadAsDaemon
| DetachCurrentThread
| NewStringUTF (s : string)
| FindClass (n : string)
| GetMethodID (cls : jclass) (n sig : string)
| GetStaticMethodID (cls : jclass) (n sig : string)
| GetStaticFieldID (cls : jclass) (n sig : string)
| NewObjectV (cls : jclass) (id : jmethodID) (args : va_list)
| CallMethodV (k : Kind) (receiver : jobject) (id : jmethodID) (args : va_list)
| CallStaticMethodV (k : Kind) (cls : jclass) (id : jmethodID) (args : va_list)
| GetStaticField (t : ValueKind) (cls : jclass) (id : jfieldID)
| NewGlobalRef (o : jobject)
| DeleteGlobalRef (o : jobject)
| ExceptionCheck
| ExceptionDescribe
| ExceptionOccurred
| ExceptionClear.

(** What a native call answers: its return value, the pointer it stores
    through an out-parameter, and the Java exception it raises, if any. *)
Record Reply : Type :=
  mkReply { rvalue : Z; rhandle : Z; rthrows : option jobject }.

(** [JNIEnv*]: null, or the environment of the calling thread. *)
Inductive JNIEnvPtr : Type := env_null | env_thread.

(** The singleton object: [JavaVM* jvm], [version], [exceptions]. *)
Record Jvm : Type := mkJvm { jvm : Z; version : Z; exceptions : bool }.

(** Handlers registered with [atexit]. *)
Inductive ExitHandler : Type := deleter.

(** ** The state of the process, seen from one calling thread

    [vm_reply] and [vm_supports] are the behaviour of the virtual machine
    and never change.  [instance] is the static [Jvm::instance]; [attached]
    and [pending] are the state that the virtual machine keeps for the
    calling thread; [trace] lists the native calls issued so far, oldest
    first. *)
Record World : Type :=
  mkWorld {
    vm_reply : list NativeCall -> NativeCall -> Reply;
    vm_supports : Z -> bool;
    instance : option Jvm;
    atexit : list ExitHandler;
    attached : bool;
    pending : option jobject;
    trace : list NativeCall }.

Definition set_instance (i : option Jvm) (w : World) : World :=
  mkWorld (vm_reply w) (vm_supports w) i (atexit w) (attached w) (pending w) (trace w).

Definition add_atexit (h : ExitHandler) (w : World) : World :=
  mkWorld (vm_reply w) (vm_supports w) (instance w) (atexit w ++ [h])
          (attached w) (pending w) (trace w).

Definition set_attached (b : bool) (w : World) : World :=
  mkWorld (vm_reply w) (vm_supports w) (instance w) (atexit w) b (pending w) (trace w).

Definition set_pending (p : option jobject) (w : World) : World :=
  mkWorld (vm_reply w) (vm_supports w) (instance w) (atexit w) (attached w) p (trace w).

Definition log (c : NativeCall) (w : World) : World :=
  mkWorld (vm_reply w) (vm_supports w) (instance w) (atexit w) (attached w)
          (pending w) (trace w ++ [c]).

(** Modelled from the spec: [java::lang::Throwable] is declared in
    [java/lang.hpp], which is not among the sources.  The spec describes it
    as a host-language error value wrapping a reference to the managed
    exception object; [Jvm::check] stores that reference in its field
    [object].  What the copy constructor and the destructor of the wrapper
    do when the value is thrown is not modelled. *)
Record Throwable : Type := mkThrowable { object : jobject }.

(** [Try<T>] of stout: a value or an error message. *)
Inductive Try (A : Type) : Type :=
| TrySome (a : A)
| TryError (message : string).
Arguments TrySome {A} a.
Arguments TryError {A} message.

(** ** Computations

    A function of the bridge returns, throws a C++ exception, or terminates
    the process ([LOG(FATAL)], a failed [CHECK], a call through a null
    pointer). *)
Inductive Outcome (A : Type) : Type :=
| Returned (a : A) (w : World)
| Thrown (t : Throwable) (w : World)
| Fatal (w : World).
Arguments Returned {A} a w.
Arguments Thrown {A} t w.
Arguments Fatal {A} w.

Definition M (A : Type) : Type := World -> Outcome A.

Definition ret {A} (a : A) : M A := fun w => Returned a w.

Definition bind {A B} (m : M A) (k : A -> M B) : M B :=
  fun w =>
    match m w with
    | Returned a w' => k a w'
    | Thrown t w' => Thrown t w'
    | Fatal w' => Fatal w'
    end.

Notation "x <- m ;; k" := (bind m (fun x => k))
  (at level 61, m at next level, right associativity).
Notation "m ;; k" := (bind m (fun _ => k))
  (at level 61, right associativity).
Notation "' pat <- m ;; k" := (bind m (fun x => match x with pat => k end))
  (at level 61, pat pattern, m at next level, right associativity).

Definition throw {A} (t : Throwable) : M A := fun w => Thrown t w.

(** The process terminates: [LOG(FATAL)], or a failed [CHECK]. *)
Definition LOG_FATAL {A} : M A := fun w => Fatal w.

(** A call through a null pointer.  The behaviour is undefined in C++; the
    spec treats a null environment as a fatal precondition violation, and
    the model terminates the process. *)
Definition null_call {A} : M A := fun w => Fatal w.

(** [CHECK_NOTNULL] of glog, on a raw pointer. *)
Definition CHECK_NOTNULL (p : Z) : M Z :=
  if p =? NULL then LOG_FATAL else ret p.

Definition final {A} (o : Outcome A) : World :=
  match o with
  | Returned _ w => w
  | Thrown _ w => w
  | Fatal w => w
  end.

Definition modify (f : World -> World) : M unit := fun w => Returned tt (f w).

Definition read {A} (f : World -> A) : M A := fun w => Returned (f w) w.

Definition JNI_FALSE : Z := 0.
Definition JNI_TRUE : Z := 1.

(** What the virtual machine answers to a call.  The attachment query and
    the exception queries are answered from the state of the calling
    thread; everything else is decided by [vm_reply]. *)
Definition answer (c : NativeCall) (w : World) : Reply :=
  match c with
  | GetEnv v =>
      if attached w
      then if vm_supports w v
           then mkReply JNI_OK NULL None
           else mkReply JNI_EVERSION NULL None
      else mkReply JNI_EDETACHED NULL None
  | ExceptionCheck =>
      mkReply (match pending w with Some _ => JNI_TRUE | None => JNI_FALSE end)
              NULL None
  | ExceptionOccurred =>
      mkReply (match pending w with Some e => e | None => NULL end) NULL None
  | ExceptionDescribe | ExceptionClear => mkReply 0 NULL None
  | _ => vm_reply w (trace w) c
  end.

(** What a call and its answer do to the state of the calling thread.
    Creating the virtual machine attaches the calling thread;
    [ExceptionDescribe] clears the pending exception as [ExceptionClear]
    does; any other call may leave a new pending exception. *)
Definition effect (c : NativeCall) (r : Reply) (w : World) : World :=
  match c with
  | JNI_CreateJavaVM _ _ | AttachCurrentThread | AttachCurrentThreadAsDaemon =>
      if rvalue r =? JNI_OK then set_attached true w else w
  | DetachCurrentThread =>
      if rvalue r =? JNI_OK then set_attached false w else w
  | ExceptionDescribe | ExceptionClear => set_pending None w
  | GetEnv _ | ExceptionCheck | ExceptionOccurred => w
  | _ =>
      match rthrows r with
      | Some e => set_pending (Some e) w
      | None => w
      end
  end.

Arguments answer : simpl never.
Arguments effect : simpl never.

(** A native call: the virtual machine answers, the state of the thread
    changes, and the call is appended to the trace. *)
Definition native_call (c : NativeCall) : M Reply :=
  fun w => let r := answer c w in Returned r (log c (effect c r w)).

(** The invocation interface, called through a [JavaVM*]. *)
Module JavaVM.

Definition GetEnv (vm : Z) (v : Z) : M (JNIEnvPtr * Z) :=
  if vm =? NULL then null_call
  else
    r <- native_call (GetEnv v) ;;
    ret (if rvalue r =? JNI_OK then env_thread else env_null, rvalue r).

Definition AttachCurrentThread (vm : Z) : M JNIEnvPtr :=
  if vm =? NULL then null_call
  else
    r <- native_call AttachCurrentThread ;;
    ret (if rvalue r =? JNI_OK then env_thread else env_null).

Definition AttachCurrentThreadAsDaemon (vm : Z) : M JNIEnvPtr :=
  if vm =? NULL then null_call
  else
    r <- native_call AttachCurrentThreadAsDaemon ;;
    ret (if rvalue r =? JNI_OK then env_thread else env_null).

Definition DetachCurrentThread (vm : Z) : M unit :=
  if vm =? NULL then null_call
  else native_call DetachCurrentThread ;; ret tt.

End JavaVM.

(** The native interface proper, called through a [JNIEnv*]:
    [JNIEnv.call env (FindClass n)] is [env->FindClass(n)]. *)
Module JNIEnv.

Definition call (env : JNIEnvPtr) (c : NativeCall) : M Z :=
  match env with
  | env_null => null_call
  | env_thread => r <- native_call c ;; ret (rvalue r)
  end.

End JNIEnv.

(** ** Declarations that the sources do not contain

    The default arguments of [JNI::Env::Env] and of [Jvm::create] are
    declared in [jvm.hpp], and the width of [long] and the conversion from
    [jchar] to [char] are fixed by the compiler.  The bridge is modelled
    for every choice of them. *)
Class Platform : Type :=
  mkPlatform {
    default_daemon : bool;
    default_options : list string;
    default_version : Z;
    default_exceptions : bool;
    char_of_jchar : Z -> Z;
    long_of_jlong : Z -> Z }.

(** Values in the host language, one constructor per result category. *)
Inductive Value : Type :=
| VVoid
| VObject (o : jobject)
| VBool (b : bool)
| VChar (c : Z)
| VShort (s : Z)
| VInt (i : Z)
| VLong (l : Z)
| VFloat (f : Z)
| VDouble (d : Z).

(** The conversion of the initialization [T x = env->...(...)] in each
    specialization.  Floating-point values are carried as they are. *)
Definition decode {P : Platform} (t : ValueKind) (raw : Z) : Value :=
  match t with
  | TObject => VObject raw
  | TBoolean => VBool (negb (raw =? 0))
  | TChar => VChar (char_of_jchar raw)
  | TShort => VShort raw
  | TInt => VInt raw
  | TLong => VLong (long_of_jlong raw)
  | TFloat => VFloat raw
  | TDouble => VDouble raw
  end.

(** The scoped attachment [JNI::Env]: [JNIEnv* env] and [bool detach]. *)
Record Env : Type := mkEnv { env : JNIEnvPtr; detach : bool }.

(** ** The bridge: [Jvm] and [JNI::Env] *)
Module Jvm.

(** [Jvm::create]. *)
Definition create (options : list string) (v : Z) (exc : bool) : M (Try Jvm) :=
  i <- read instance ;;
  match i with
  | Some _ => ret (TryError "Java Virtual Machine already created")
  | None =>
      r <- native_call (JNI_CreateJavaVM options v) ;;
      if rvalue r =? JNI_ERR then ret (TryError "Failed to create JVM!")
      else
        let j := mkJvm (rhandle r) v exc in
        modify (set_instance (Some j)) ;;
        modify (add_atexit deleter) ;;
        ret (TrySome j)
  end.

(** [Jvm::created]. *)
Definition created : M bool :=
  i <- read instance ;;
  ret (match i with Some _ => true | None => false end).

(** [Jvm::get]: the result of the lazy [create()] is dropped, and
    [CHECK_NOTNULL(instance)] terminates the process when there is still no
    instance. *)
Definition get {P : Platform} : M Jvm :=
  i <- read instance ;;
  match i with
  | None => create default_options default_version default_exceptions ;; ret tt
  | Some _ => ret tt
  end ;;
  i' <- read instance ;;
  match i' with
  | Some j => ret j
  | None => LOG_FATAL
  end.

(** [JNI::Env]: the constructor, the destructor, and a scope that owns one
    guard.  The destructor runs when the scope is left by [return] or by an
    exception, and does not run when the process terminates. *)
Module Env.

Definition ctor {P : Platform} (daemon : bool) : M Env :=
  j <- get ;;
  j' <- get ;;
  '(e, result) <- JavaVM.GetEnv (jvm j) (version j') ;;
  if result =? JNI_EDETACHED then
    e' <- (if daemon
           then JavaVM.AttachCurrentThreadAsDaemon (jvm j)
           else JavaVM.AttachCurrentThread (jvm j)) ;;
    ret (mkEnv e' true)
  else ret (mkEnv e false).

Definition dtor {P : Platform} (g : Env) : M unit :=
  if detach g then
    j <- get ;;
    JavaVM.DetachCurrentThread (jvm j)
  else ret tt.

Definition scoped {P : Platform} {A} (daemon : bool) (body : Env -> M A) : M A :=
  fun w =>
    match ctor daemon w with
    | Returned g w1 =>
        match body g w1 with
        | Returned a w2 =>
            match dtor g w2 with
            | Returned _ w3 => Returned a w3
            | Thrown t w3 => Thrown t w3
            | Fatal w3 => Fatal w3
            end
        | Thrown t w2 =>
            match dtor g w2 with
            | Returned _ w3 => Thrown t w3
            | Thrown _ w3 => Fatal w3
            | Fatal w3 => Fatal w3
            end
        | Fatal w2 => Fatal w2
        end
    | Thrown t w1 => Thrown t w1
    | Fatal w1 => Fatal w1
    end.

End Env.

(** [Jvm::string]. *)
Definition string_ {P : Platform} (s : string) : M Z :=
  Env.scoped default_daemon (fun g => JNIEnv.call (env g) (NewStringUTF s)).

(** [Jvm::findClass]. *)
Definition findClass {P : Platform} (clazz : Class) : M jclass :=
  Env.scoped default_daemon (fun g =>
    c <- JNIEnv.call (env g) (FindClass (name clazz)) ;;
    CHECK_NOTNULL c).

(** The private [Jvm::findMethod].  [VLOG] has no effect on the state. *)
Definition findMethod {P : Platform} (clazz : Class) (n : string)
    (returnType : Class) (argTypes : list Class) (isStatic : bool) : M jmethodID :=
  Env.scoped default_daemon (fun g =>
    let signature := signature_stream returnType argTypes in
    id <- (if isStatic
           then cls <- findClass clazz ;;
                JNIEnv.call (env g) (GetStaticMethodID cls n signature)
           else cls <- findClass clazz ;;
                JNIEnv.call (env g) (GetMethodID cls n signature)) ;;
    CHECK_NOTNULL id).

(** [Jvm::findConstructor]. *)
Definition findConstructor {P : Platform} (finder : ConstructorFinder) : M Constructor :=
  id <- findMethod (cf_clazz finder) "<init>" ClassOps.VOID
          (cf_parameters finder) false ;;
  ret (mkConstructor (cf_clazz finder) id).

(** The public [Jvm::findMethod(const MethodSignature&)]. *)
Definition findMethod_signature {P : Platform} (signature : MethodSignature) : M Method :=
  id <- findMethod (ms_clazz signature) (ms_name signature)
          (ms_returnType signature) (ms_parameters signature) false ;;
  ret (mkMethod (ms_clazz signature) id).

(** [Jvm::findStaticMethod]. *)
Definition findStaticMethod {P : Platform} (signature : MethodSignature) : M Method :=
  id <- findMethod (ms_clazz signature) (ms_name signature)
          (ms_returnType signature) (ms_parameters signature) true ;;
  ret (mkMethod (ms_clazz signature) id).

(** [Jvm::check]. *)
Definition check (self : Jvm) (e : JNIEnvPtr) : M unit :=
  b <- JNIEnv.call e ExceptionCheck ;;
  if b =? JNI_TRUE then
    if negb (exceptions self) then
      JNIEnv.call e ExceptionDescribe ;;
      LOG_FATAL
    else
      o <- JNIEnv.call e ExceptionOccurred ;;
      JNIEnv.call e ExceptionClear ;;
      throw (mkThrowable o)
  else ret tt.

(** [Jvm::findStaticField]. *)
Definition findStaticField {P : Platform} (self : Jvm) (clazz : Class) (n : string)
    : M Field :=
  Env.scoped default_daemon (fun g =>
    cls <- findClass clazz ;;
    id <- JNIEnv.call (env g) (GetStaticFieldID cls n (ClassOps.signature clazz)) ;;
    check self (env g) ;;
    ret (mkField clazz id)).

(** [Jvm::invoke(const Constructor&, ...)]. *)
Definition invoke_ctor {P : Platform} (self : Jvm) (ctor : Constructor) (args : va_list)
    : M jobject :=
  Env.scoped default_daemon (fun g =>
    cls <- findClass (ctor_clazz ctor) ;;
    o <- JNIEnv.call (env g) (NewObjectV cls (ctor_id ctor) args) ;;
    check self (env g) ;;
    ret o).

(** [Jvm::getStaticField<T>], one specialization per [t]. *)
Definition getStaticField {P : Platform} (self : Jvm) (t : ValueKind) (field : Field)
    : M Value :=
  Env.scoped default_daemon (fun g =>
    cls <- findClass (field_clazz field) ;;
    x <- JNIEnv.call (env g) (GetStaticField t cls (field_id field)) ;;
    check self (env g) ;;
    ret (decode t x)).

(** [Jvm::newGlobalRef]. *)
Definition newGlobalRef {P : Platform} (o : jobject) : M jobject :=
  Env.scoped default_daemon (fun g => JNIEnv.call (env g) (NewGlobalRef o)).

(** [Jvm::deleteGlobalRef]. *)
Definition deleteGlobalRef {P : Platform} (o : jobject) : M unit :=
  Env.scoped default_daemon (fun g =>
    if negb (o =? NULL) then JNIEnv.call (env g) (DeleteGlobalRef o) ;; ret tt
    else ret tt).

(** [Jvm::invokeV<T>], one specialization per [k]. *)
Definition invokeV {P : Platform} (self : Jvm) (k : Kind) (receiver : jobject)
    (id : jmethodID) (args : va_list) : M Value :=
  Env.scoped default_daemon (fun g =>
    match k with
    | KVoid =>
        JNIEnv.call (env g) (CallMethodV KVoid receiver id args) ;;
        check self (env g) ;;
        ret VVoid
    | KValue t =>
        x <- JNIEnv.call (env g) (CallMethodV (KValue t) receiver id args) ;;
        check self (env g) ;;
        ret (decode t x)
    end).

(** [Jvm::invokeStaticV<T>], one specialization per [k]. *)
Definition invokeStaticV {P : Platform} (self : Jvm) (k : Kind) (receiver : Class)
    (id : jmethodID) (args : va_list) : M Value :=
  Env.scoped default_daemon (fun g =>
    match k with
    | KVoid =>
        cls <- findClass receiver ;;
        JNIEnv.call (env g) (CallStaticMethodV KVoid cls id args) ;;
        check self (env g) ;;
        ret VVoid
    | KValue t =>
        cls <- findClass receiver ;;
        x <- JNIEnv.call (env g) (CallStaticMethodV (KValue t) cls id args) ;;
        check self (env g) ;;
        ret (decode t x)
    end).

(** [Jvm::invoke<void>] and [Jvm::invokeStatic<void>]. *)
Definition invoke_void {P : Platform} (self : Jvm) (receiver : jobject)
    (method : Method) (args : va_list) : M Value :=
  invokeV self KVoid receiver (method_id method) args.

Definition invokeStatic_void {P : Platform} (self : Jvm) (method : Method)
    (args : va_list) : M Value :=
  invokeStaticV self KVoid (method_clazz method) (method_id method) args.

End Jvm.

(** ** The invocation and field-read entry points, taken together *)

Inductive EntryPoint : Type :=
| ep_invokeV (k : Kind) (receiver : jobject) (id : jmethodID) (args : va_list)
| ep_invokeStaticV (k : Kind) (receiver : Class) (id : jmethodID) (args : va_list)
| ep_invoke_ctor (ctor : Constructor) (args : va_list)
| ep_getStaticField (t : ValueKind) (field : Field)
| ep_invoke_void (receiver : jobject) (method : Method) (args : va_list)
| ep_invokeStatic_void (method : Method) (args : va_list).

(** Entering the bridge through an entry point. *)
Definition enter {P : Platform} (self : Jvm) (ep : EntryPoint) : M Value :=
  match ep with
  | ep_invokeV k receiver id args => Jvm.invokeV self k receiver id args
  | ep_invokeStaticV k receiver id args => Jvm.invokeStaticV self k receiver id args
  | ep_invoke_ctor ctor args => o <- Jvm.invoke_ctor self ctor args ;; ret (VObject o)
  | ep_getStaticField t field => Jvm.getStaticField self t field
  | ep_invoke_void receiver method args => Jvm.invoke_void self receiver method args
  | ep_invokeStatic_void method args => Jvm.invokeStatic_void self method args
  end.

(** The class whose handle an entry point looks up before its native call,
    if it looks one up. *)
Definition looked_up (ep : EntryPoint) : option Class :=
  match ep with
  | ep_invokeV _ _ _ _ => None
  | ep_invokeStaticV _ receiver _ _ => Some receiver
  | ep_invoke_ctor ctor _ => Some (ctor_clazz ctor)
  | ep_getStaticField _ field => Some (field_clazz field)
  | ep_invoke_void _ _ _ => None
  | ep_invokeStatic_void method _ => Some (method_clazz method)
  end.

Definition resolve {P : Platform} (ep : EntryPoint) : M jclass :=
  match looked_up ep with
  | Some c => Jvm.findClass c
  | None => ret NULL
  end.

(** The native call that an entry point makes, given the class handle. *)
Definition underlying (ep : EntryPoint) (cls : jclass) : NativeCall :=
  match ep with
  | ep_invokeV k receiver id args => CallMethodV k receiver id args
  | ep_invokeStaticV k _ id args => CallStaticMethodV k cls id args
  | ep_invoke_ctor ctor args => NewObjectV cls (ctor_id ctor) args
  | ep_getStaticField t field => GetStaticField t cls (field_id field)
  | ep_invoke_void receiver method args => CallMethodV KVoid receiver (method_id method) args
  | ep_invokeStatic_void method args => CallStaticMethodV KVoid cls (method_id method) args
  end.

(** The value that an entry point returns for the raw result [x] of its
    native call. *)
Definition decoded {P : Platform} (ep : EntryPoint) (x : Z) : Value :=
  match ep with
  | ep_invokeV (KValue t) _ _ _ | ep_invokeStaticV (KValue t) _ _ _ => decode t x
  | ep_invokeV KVoid _ _ _ | ep_invokeStaticV KVoid _ _ _ => VVoid
  | ep_invoke_ctor _ _ => VObject x
  | ep_getStaticField t _ => decode t x
  | ep_invoke_void _ _ _ | ep_invokeStatic_void _ _ => VVoid
  end.

(** ** Sequences of calls made by a client

    A client calls the static functions [create], [created] and [get], and
    the member functions on the object that [get] returns.  A client that
    catches a translated exception goes on; when the process terminates,
    the rest of the sequence is not run. *)

Inductive Member : Type :=
| m_string (s : string)
| m_findConstructor (finder : ConstructorFinder)
| m_findMethod (signature : MethodSignature)
| m_findStaticMethod (signature : MethodSignature)
| m_findStaticField (clazz : Class) (n : string)
| m_newGlobalRef (o : jobject)
| m_deleteGlobalRef (o : jobject)
| m_enter (ep : EntryPoint).

Inductive Call : Type :=
| call_create (options : list string) (v : Z) (exc : bool)
| call_created
| call_get
| call_member (m : Member).

Inductive Observed : Type :=
| create_returned (t : Try Jvm)
| returned
| threw (t : Throwable).

Definition member {P : Platform} (self : Jvm) (m : Member) : M unit :=
  match m with
  | m_string s => Jvm.string_ s ;; ret tt
  | m_findConstructor finder => Jvm.findConstructor finder ;; ret tt
  | m_findMethod signature => Jvm.findMethod_signature signature ;; ret tt
  | m_findStaticMethod signature => Jvm.findStaticMethod signature ;; ret tt
  | m_findStaticField clazz n => Jvm.findStaticField self clazz n ;; ret tt
  | m_newGlobalRef o => Jvm.newGlobalRef o ;; ret tt
  | m_deleteGlobalRef o => Jvm.deleteGlobalRef o
  | m_enter ep => enter self ep ;; ret tt
  end.

Definition perform {P : Platform} (c : Call) : M Observed :=
  match c with
  | call_create options v exc =>
      t <- Jvm.create options v exc ;; ret (create_returned t)
  | call_created => Jvm.created ;; ret returned
  | call_get => Jvm.get ;; ret returned
  | call_member m => self <- Jvm.get ;; member self m ;; ret returned
  end.

Fixpoint run {P : Platform} (calls : list Call) (w : World)
    : list (Call * Observed) * World :=
  match calls with
  | [] => ([], w)
  | c :: rest =>
      match perform c w with
      | Returned o w' => let (l, wf) := run rest w' in ((c, o) :: l, wf)
      | Thrown t w' => let (l, wf) := run rest w' in ((c, threw t) :: l, wf)
      | Fatal w' => ([], w')
      end
  end.

Definition create_succeeded (e : Call * Observed) : bool :=
  match snd e with
  | create_returned (TrySome _) => true
  | _ => false
  end.

(** After such an entry of the log the instance exists: [create] has
    succeeded, or the call went through [get]. *)
Definition established (e : Call * Observed) : bool :=
  create_succeeded e ||
  match fst e with
  | call_get | call_member _ => true
  | _ => false
  end.

(** The entry is not a call of [create], or it is one that returned the
    error of a second creation. *)
Definition refused (e : Call * Observed) : Prop :=
  forall options v exc,
    fst e = call_create options v exc ->
    snd e = create_returned (TryError "Java Virtual Machine already created").

(** ** Relations between worlds and properties of computations *)

(** The calls of the invocation interface: querying, attaching and
    detaching the calling thread. *)
Definition thread_call (c : NativeCall) : Prop :=
  match c with
  | GetEnv _ | AttachCurrentThread | AttachCurrentThreadAsDaemon
  | DetachCurrentThread => True
  | _ => False
  end.

(** The calls by which a scoped attachment is acquired and released; the
    first acquisition may create the virtual machine. *)
Definition attachment_call (c : NativeCall) : Prop :=
  match c with
  | JNI_CreateJavaVM _ _ => True
  | _ => thread_call c
  end.

(** [w'] is reached from [w] by native calls that all satisfy [ok]; the
    virtual machine is the same, an instance that exists stays, and the
    pending exception is the same when only attachment calls were made. *)
Definition evolves (ok : NativeCall -> Prop) (w w' : World) : Prop :=
  vm_reply w' = vm_reply w /\
  vm_supports w' = vm_supports w /\
  (forall j, instance w = Some j -> instance w' = Some j) /\
  exists l, trace w' = (trace w ++ l)%list /\ Forall ok l /\
            (Forall attachment_call l -> pending w' = pending w).

Definition respects (ok : NativeCall -> Prop) {A} (m : M A) : Prop :=
  forall w, evolves ok w (final (m w)).

Definition attach_call (c : NativeCall) : Prop :=
  match c with
  | AttachCurrentThread | AttachCurrentThreadAsDaemon => True
  | _ => False
  end.

Definition exception_call (c : NativeCall) : Prop :=
  match c with
  | ExceptionCheck | ExceptionDescribe | ExceptionOccurred | ExceptionClear => True
  | _ => False
  end.

(** A runtime that is ready for the calling thread: the instance [j] exists
    with a handle that is not null, the thread is attached, and the
    version of the instance is supported. *)
Definition ready (w : World) (j : Jvm) : Prop :=
  instance w = Some j /\ jvm j <> NULL /\
  attached w = true /\ vm_supports w (version j) = true.

(** The native calls of a constructor lookup. *)
Definition constructor_lookup (finder : ConstructorFinder) (c : NativeCall) : Prop :=
  attachment_call c \/
  c = FindClass (name (cf_clazz finder)) \/
  exists cls,
    c = GetMethodID cls "<init>"
          ("(" ++ String.concat "" (map ClassOps.signature (cf_parameters finder))
               ++ ")V").



(** A computation that does not leave by a C++ exception. *)
Definition never_throws {A} (m : M A) : Prop :=
  forall w t w', m w <> Thrown t w'.

(** A runtime that is alive for the calling thread: the instance exists
    with a handle that is not null. *)
Definition alive (w : World) : Prop :=
  exists j, instance w = Some j /\ jvm j <> NULL.

(** The native calls of a method lookup with the encoded signature [sig]. *)
Definition method_lookup (sig : string) (c : NativeCall) : Prop :=
  match c with
  | GetMethodID _ _ s | GetStaticMethodID _ _ s => s = sig
  | _ => True
  end.

(** ** Sample worlds

    A virtual machine that creates itself, finds every class and method,
    declares one static field, and raises an exception in every instance
    method; and a few states of a process that embeds it. *)

Definition sample_platform : Platform :=
  mkPlatform true [] 65542 false (fun z => z mod 256) (fun z => z).

Definition sample_declared (cls : jclass) (n : string) : option (string * jfieldID) :=
  if (cls =? 512) && (n =? "EMPTY")%string
  then Some ("Ljava/util/Optional;", 33)
  else if (cls =? 512) && (n =? "out")%string
  then Some ("Ljava/io/PrintStream;", 34)
  else None.

Definition sample_reply (t : list NativeCall) (c : NativeCall) : Reply :=
  match c with
  | JNI_CreateJavaVM _ _ => mkReply JNI_OK 4096 None
  | FindClass _ => mkReply 512 NULL None
  | GetMethodID _ _ _ | GetStaticMethodID _ _ _ => mkReply 64 NULL None
  | GetStaticFieldID cls n sig =>
      match sample_declared cls n with
      | Some (s, id) =>
          if (s =? sig)%string then mkReply id NULL None
          else mkReply NULL NULL (Some 88)
      | None => mkReply NULL NULL (Some 88)
      end
  | CallMethodV _ _ _ _ => mkReply 5 NULL (Some 77)
  | _ => mkReply 0 NULL None
  end.

Definition sample_jvm : Jvm := mkJvm 4096 65542 true.

Definition fresh_world : World :=
  mkWorld sample_reply (fun _ => true) None [] false None [].

Definition live_world : World :=
  mkWorld sample_reply (fun _ => true) (Some sample_jvm) [deleter] true None [].

Definition detached_world : World :=
  mkWorld sample_reply (fun _ => true) (Some sample_jvm) [deleter] false None [].

Definition pending_world : World :=
  mkWorld sample_reply (fun _ => true) (Some sample_jvm) [deleter] true (Some 77) [].

(** A virtual machine that cannot be created for lack of memory. *)
Definition exhausted_world : World :=
  mkWorld (fun _ _ => mkReply JNI_ENOMEM NULL None) (fun _ => true)
          None [] false None [].

(** ** Further notions for the rest of the bridge *)

(** [n] array markers. *)
Definition markers (n : nat) : string := Nat.iter n (fun s => "[" ++ s) "".

(** [arrayOf] applied [n] times. *)
Definition arrayOf_n (n : nat) (c : Class) : Class := Nat.iter n ClassOps.arrayOf c.

(** A computation keeps the invariant [Inv], and relates the world it
    starts from to the world it ends in by [Rel]. *)
Definition keeps (Inv : World -> Prop) (Rel : World -> World -> Prop)
    {A} (m : M A) : Prop :=
  forall w, Inv w -> Inv (final (m w)) /\ Rel w (final (m w)).

(** Between [w] and [w'] the instance and the exit handlers are the same,
    or an instance was created where there was none and one [deleter] was
    registered. *)
Definition registered (w w' : World) : Prop :=
  (instance w' = instance w /\ atexit w' = atexit w) \/
  (instance w = None /\
   exists j, instance w' = Some j /\ atexit w' = (atexit w ++ [deleter])%list).

(** The calls that change whether the thread is attached. *)
Definition attachment_change (c : NativeCall) : Prop :=
  attach_call c \/ c = DetachCurrentThread.

Definition is_attached (w : World) : Prop := attached w = true.

Definition unchanged_attachment (w w' : World) : Prop :=
  evolves (fun c => ~ attachment_change c) w w'.

Definition is_fatal {A} (o : Outcome A) : bool :=
  match o with
  | Fatal _ => true
  | _ => false
  end.

(** The attach call that a guard makes with the default [daemon] flag. *)
Definition default_attach {P : Platform} : NativeCall :=
  if default_daemon then AttachCurrentThreadAsDaemon else AttachCurrentThread.

(** On a detached thread with a runtime that is alive and accepts the
    attachment, [m] queries the thread, attaches it once, makes calls that
    leave the attachment alone, and detaches it once at the end unless the
    process has terminated. *)
Definition balanced {P : Platform} {A} (m : M A) : Prop :=
  forall w j,
    instance w = Some j -> jvm j <> NULL -> attached w = false ->
    rvalue (vm_reply w (trace w ++ [GetEnv (version j)])%list default_attach) = JNI_OK ->
    exists l,
      Forall (fun c => ~ attachment_change c) l /\
      trace (final (m w))
      = (trace w ++ GetEnv (version j) :: default_attach :: l
           ++ (if is_fatal (m w) then [] else [DetachCurrentThread]))%list.

(** When [m] returns or throws, no exception is pending. *)
Definition settles {A} (m : M A) : Prop :=
  forall w,
    match m w with
    | Returned _ w' | Thrown _ w' => pending w' = None
    | Fatal _ => True
    end.

(** The member functions that run the exception check. *)
Definition checked (m : Member) : bool :=
  match m with
  | m_findStaticField _ _ | m_enter _ => true
  | _ => false
  end.

(** The calls into the managed runtime proper: they may raise. *)
Definition managed_call (c : NativeCall) : Prop :=
  ~ thread_call c /\ ~ exception_call c /\
  forall options v, c <> JNI_CreateJavaVM options v.

(** The exception that is pending after a managed call answered [r], when
    [p] was pending before. *)
Definition raised (r : Reply) (p : option jobject) : option jobject :=
  match rthrows r with
  | Some x => Some x
  | None => p
  end.

(** [w'] is reached from [w] by the calls [l]; the runtime is still ready
    for the instance [j], and [p] is pending. *)
Definition follows (w : World) (j : Jvm) (l : list NativeCall)
    (p : option jobject) (w' : World) : Prop :=
  ready w' j /\ trace w' = (trace w ++ l)%list /\
  vm_reply w' = vm_reply w /\ pending w' = p.

(** The encoded signature of a method signature. *)
Definition encoded (s : MethodSignature) : string :=
  "(" ++ String.concat "" (map ClassOps.signature (ms_parameters s))
      ++ ")" ++ ClassOps.signature (ms_returnType s).

(** The lookup call of [findMethod] and of [findStaticMethod]. *)
Definition lookup_call (isStatic : bool) (s : MethodSignature) (cls : jclass) : NativeCall :=
  if isStatic then GetStaticMethodID cls (ms_name s) (encoded s)
  else GetMethodID cls (ms_name s) (encoded s).

(** The two public method lookups. *)
Definition find {P : Platform} (isStatic : bool) (s : MethodSignature) : M Method :=
  if isStatic then Jvm.findStaticMethod s else Jvm.findMethod_signature s.

(** The calls with which an entry point starts in a runtime that is
    ready: the query of its own guard, and the query of the guard of
    [findClass] with the class lookup when it looks up a class. *)
Definition entry_calls (j : Jvm) (ep : EntryPoint) : list NativeCall :=
  GetEnv (version j) ::
  match looked_up ep with
  | Some c => [GetEnv (version j); FindClass (name c)]
  | None => []
  end.

(** What the virtual machine answers to that class lookup; the answer of
    an entry point without class lookup is the null handle that [resolve]
    passes on. *)
Definition class_reply (w : World) (j : Jvm) (ep : EntryPoint) : Reply :=
  match looked_up ep with
  | Some c =>
      vm_reply w (trace w ++ [GetEnv (version j); GetEnv (version j)])%list
               (FindClass (name c))
  | None => mkReply NULL NULL None
  end.

(** What it answers to the native call of the entry point. *)
Definition call_reply (w : World) (j : Jvm) (ep : EntryPoint) : Reply :=
  vm_reply w (trace w ++ entry_calls j ep)%list
           (underlying ep (rvalue (class_reply w j ep))).

(** The class was found, if one was looked up. *)
Definition class_found (w : World) (j : Jvm) (ep : EntryPoint) : Prop :=
  looked_up ep = None \/ rvalue (class_reply w j ep) <> NULL.

(** ** Finder objects

    [MethodFinder::parameter] pushes onto the receiver in place and returns
    [*this]; [MethodFinder::returns] is const and copies the fields of the
    receiver into a new signature; [Class::method] makes a new finder.  The
    finder objects of a program are kept in a store and named by their
    position in it. *)

(** [s] with the object at position [a] replaced by [x]. *)
Fixpoint update {A} (a : nat) (x : A) (s : list A) : list A :=
  match s, a with
  | [], _ => []
  | _ :: s', O => x :: s'
  | y :: s', S a' => y :: update a' x s'
  end.

Module FinderStore.

Definition ref := nat.
Definition Store := list MethodFinder.

(** [Class::method]: a new object; the reference to it and the new store. *)
Definition method (c : Class) (n : string) (s : Store) : ref * Store :=
  (List.length s, (s ++ [Finder.method c n])%list).

(** [MethodFinder::parameter] on the object that [a] refers to: the object
    is changed in place and the reference returned is [a] itself.  [None]
    when [a] refers to no object. *)
Definition parameter (a : ref) (type : Class) (s : Store) : option (ref * Store) :=
  match nth_error s a with
  | Some f => Some (a, update a (Finder.parameter f type) s)
  | None => None
  end.

(** [MethodFinder::returns] on the object that [a] refers to: the store is
    only read. *)
Definition returns (a : ref) (returnType : Class) (s : Store) : option MethodSignature :=
  match nth_error s a with
  | Some f => Some (Finder.returns f returnType)
  | None => None
  end.

(** The chain [.parameter(p1).parameter(p2)...]: each call is made on the
    reference that the call before returned. *)
Fixpoint parameters (a : ref) (ps : list Class) (s : Store) : option (ref * Store) :=
  match ps with
  | [] => Some (a, s)
  | p :: ps' =>
      match parameter a p s with
      | Some (a', s') => parameters a' ps' s'
      | None => None
      end
  end.

End FinderStore.

(** * Properties *)

(** ** Strings and signatures *)

Lemma append_nil_r (s : string) : s ++ "" = s.
Proof. induction s as [|a s IH]; simpl; [reflexivity | now rewrite IH]. Qed.

Lemma append_assoc (s t u : string) : (s ++ t) ++ u = s ++ (t ++ u).
Proof. induction s as [|a s IH]; simpl; [reflexivity | now rewrite IH]. Qed.

Lemma concat_empty_cons (x : string) (xs : list string) :
  String.concat "" (x :: xs) = x ++ String.concat "" xs.
Proof.
  destruct xs as [|y ys]; simpl; [now rewrite append_nil_r | reflexivity].
Qed.

Lemma fold_left_signature (argTypes : list Class) (acc : string) :
  fold_left (fun acc type => acc ++ ClassOps.signature type) argTypes acc
  = acc ++ String.concat "" (map ClassOps.signature argTypes).
Proof.
  revert acc; induction argTypes as [|c cs IH]; intros acc.
  - simpl. now rewrite append_nil_r.
  - cbn [fold_left map]. rewrite IH, concat_empty_cons, append_assoc.
    reflexivity.
Qed.

Lemma signature_stream_eq (returnType : Class) (argTypes : list Class) :
  signature_stream returnType argTypes
  = "(" ++ String.concat "" (map ClassOps.signature argTypes)
        ++ ")" ++ ClassOps.signature returnType.
Proof.
  unfold signature_stream. rewrite fold_left_signature.
  now rewrite !append_assoc.
Qed.

Lemma parameter_chain (f : MethodFinder) (ps : list Class) :
  mf_parameters (fold_left Finder.parameter ps f) = (mf_parameters f ++ ps)%list.
Proof.
  revert f; induction ps as [|p ps IH]; intros f; simpl.
  - now rewrite app_nil_r.
  - rewrite IH. simpl. now rewrite <- app_assoc.
Qed.

Lemma ctor_parameter_chain (f : ConstructorFinder) (ps : list Class) :
  cf_parameters (fold_left Finder.ctor_parameter ps f) = (cf_parameters f ++ ps)%list
  /\ cf_clazz (fold_left Finder.ctor_parameter ps f) = cf_clazz f.
Proof.
  revert f; induction ps as [|p ps IH]; intros f; simpl.
  - now rewrite app_nil_r.
  - destruct (IH (Finder.ctor_parameter f p)) as [-> ->]. simpl.
    now rewrite <- app_assoc.
Qed.


(** C4.  [INT.arrayOf().signature()] is ["[I"].  For a descriptor that is
    not primitive, [arrayOf] puts the array marker in front of the name and
    [signature] then wraps the whole name: the fragment of
    [STRING.arrayOf().arrayOf()] is ["L[[java/lang/String;"], which is not
    ["[[Ljava/lang/String;"]. *)
Theorem array_descriptor_composition :
  ClassOps.signature (ClassOps.arrayOf ClassOps.INT) = "[I" /\
  native (ClassOps.arrayOf ClassOps.INT) = native ClassOps.INT /\
  ClassOps.signature (ClassOps.arrayOf (ClassOps.arrayOf ClassOps.STRING))
  = "L[[java/lang/String;" /\
  ClassOps.signature (ClassOps.arrayOf (ClassOps.arrayOf ClassOps.STRING))
  <> "[[Ljava/lang/String;".
Proof.
  repeat split; try reflexivity. discriminate.
Qed.

(** ** Computations: how an outcome comes about *)

Lemma bind_Returned {A B} (m : M A) (k : A -> M B) w b w' :
  bind m k w = Returned b w' ->
  exists a w1, m w = Returned a w1 /\ k a w1 = Returned b w'.
Proof.
  unfold bind. destruct (m w) as [a w1|t w1|w1]; intros H; try discriminate.
  exists a, w1. split; [reflexivity | exact H].
Qed.

Lemma bind_step {A B} (m : M A) (k : A -> M B) w a w1 :
  m w = Returned a w1 -> bind m k w = k a w1.
Proof. unfold bind. now intros ->. Qed.

Lemma CHECK_NOTNULL_Returned p x w w' :
  CHECK_NOTNULL p w = Returned x w' -> x = p /\ p <> NULL /\ w' = w.
Proof.
  unfold CHECK_NOTNULL. destruct (Z.eqb_spec p NULL) as [E|E]; intros H.
  - discriminate.
  - inversion H; subst. auto.
Qed.

Lemma call_Returned e c x w w' :
  JNIEnv.call e c w = Returned x w' ->
  e = env_thread /\ x = rvalue (answer c w) /\ w' = log c (effect c (answer c w) w).
Proof.
  destruct e; cbn; intros H; [discriminate|].
  inversion H; subst. auto.
Qed.

Lemma effect_frame c r w :
  vm_reply (effect c r w) = vm_reply w /\
  vm_supports (effect c r w) = vm_supports w /\
  instance (effect c r w) = instance w /\
  atexit (effect c r w) = atexit w /\
  trace (effect c r w) = trace w.
Proof.
  unfold effect. destruct c; cbn;
    repeat match goal with
           | |- context [if ?b then _ else _] => destruct b
           | |- context [match ?o with Some _ => _ | None => _ end] => destruct o
           end; cbn; auto.
Qed.

Lemma native_trace c r w :
  trace (log c (effect c r w)) = (trace w ++ [c])%list.
Proof.
  destruct (effect_frame c r w) as (_ & _ & _ & _ & T). cbn. now rewrite T.
Qed.

Lemma effect_pending c r w :
  attachment_call c -> pending (effect c r w) = pending w.
Proof.
  unfold effect. destruct c; cbn; intros H; try contradiction;
    repeat match goal with
           | |- context [if ?b then _ else _] => destruct b
           end; reflexivity.
Qed.

Section Evolution.

Variable ok : NativeCall -> Prop.

Lemma evolves_refl w : evolves ok w w.
Proof.
  split; [|split; [|split]]; auto. exists []. now rewrite app_nil_r.
Qed.

Lemma evolves_trans a b c : evolves ok a b -> evolves ok b c -> evolves ok a c.
Proof.
  intros (R1 & S1 & I1 & l1 & T1 & F1 & P1) (R2 & S2 & I2 & l2 & T2 & F2 & P2).
  split; [|split; [|split]]; try congruence; auto.
  exists (l1 ++ l2)%list. split; [|split].
  - now rewrite T2, T1, app_assoc.
  - apply Forall_app; auto.
  - intros H. apply Forall_app in H as [H1 H2].
    rewrite (P2 H2). exact (P1 H1).
Qed.

Lemma evolves_step c r w : ok c -> evolves ok w (log c (effect c r w)).
Proof.
  intros Hc. destruct (effect_frame c r w) as (R & S & I & _ & T).
  split; [|split; [|split]]; cbn; try congruence.
  exists [c]. split; [now rewrite T | split; [auto|]].
  intros H. apply Forall_inv in H. now apply effect_pending.
Qed.

Lemma respects_ret {A} (a : A) : respects ok (ret a).
Proof. intros w. apply evolves_refl. Qed.

Lemma respects_throw {A} t : respects ok (@throw A t).
Proof. intros w. apply evolves_refl. Qed.

Lemma respects_LOG_FATAL {A} : respects ok (@LOG_FATAL A).
Proof. intros w. apply evolves_refl. Qed.

Lemma respects_null_call {A} : respects ok (@null_call A).
Proof. intros w. apply evolves_refl. Qed.

Lemma respects_read {A} (f : World -> A) : respects ok (read f).
Proof. intros w. apply evolves_refl. Qed.

Lemma respects_CHECK_NOTNULL p : respects ok (CHECK_NOTNULL p).
Proof.
  unfold CHECK_NOTNULL. destruct (p =? NULL).
  - apply respects_LOG_FATAL.
  - apply respects_ret.
Qed.

Lemma respects_bind {A B} (m : M A) (k : A -> M B) :
  respects ok m -> (forall a, respects ok (k a)) -> respects ok (bind m k).
Proof.
  intros Hm Hk w. unfold bind. specialize (Hm w).
  destruct (m w) as [a w1|t w1|w1]; cbn in *; auto.
  eapply evolves_trans; [exact Hm | apply Hk].
Qed.

Lemma respects_native c : ok c -> respects ok (native_call c).
Proof. intros Hc w. now apply evolves_step. Qed.

Lemma respects_call e c : ok c -> respects ok (JNIEnv.call e c).
Proof.
  intros Hc. destruct e; cbn.
  - apply respects_null_call.
  - apply respects_bind; [now apply respects_native | intros; apply respects_ret].
Qed.

Hypothesis ok_create : forall options v, ok (JNI_CreateJavaVM options v).

Lemma respects_create options v exc : respects ok (Jvm.create options v exc).
Proof.
  intros w. unfold Jvm.create, bind, read. cbn.
  destruct (instance w) as [j|] eqn:Ei; cbn.
  - apply evolves_refl.
  - set (c := JNI_CreateJavaVM options v).
    pose proof (evolves_step c (answer c w) w (ok_create options v))
      as (R & S & I & l & T & F & Q).
    destruct (_ =? JNI_ERR); cbn; (split; [|split; [|split]]); cbn;
      try assumption; try (intros j Hj; congruence); exists l; auto.
Qed.

Lemma respects_get {P : Platform} : respects ok Jvm.get.
Proof.
  unfold Jvm.get.
  apply respects_bind; [apply respects_read | intros i].
  apply respects_bind.
  - destruct i.
    + apply respects_ret.
    + apply respects_bind; [apply respects_create | intros; apply respects_ret].
  - intros _. apply respects_bind; [apply respects_read | intros [j|]].
    + apply respects_ret.
    + apply respects_LOG_FATAL.
Qed.

Hypothesis ok_thread : forall c, thread_call c -> ok c.

Lemma respects_JavaVM vm v :
  respects ok (JavaVM.GetEnv vm v) /\
  respects ok (JavaVM.AttachCurrentThread vm) /\
  respects ok (JavaVM.AttachCurrentThreadAsDaemon vm) /\
  respects ok (JavaVM.DetachCurrentThread vm).
Proof.
  unfold JavaVM.GetEnv, JavaVM.AttachCurrentThread,
    JavaVM.AttachCurrentThreadAsDaemon, JavaVM.DetachCurrentThread.
  destruct (vm =? NULL); repeat split; try apply respects_null_call;
    (apply respects_bind;
     [apply respects_native, ok_thread; exact I | intros; apply respects_ret]).
Qed.

Lemma respects_ctor {P : Platform} daemon : respects ok (Jvm.Env.ctor daemon).
Proof.
  unfold Jvm.Env.ctor.
  apply respects_bind; [apply respects_get | intros j].
  apply respects_bind; [apply respects_get | intros j'].
  apply respects_bind; [apply respects_JavaVM | intros [e result]].
  destruct (result =? JNI_EDETACHED); [|apply respects_ret].
  apply respects_bind; [|intros; apply respects_ret].
  destruct daemon; apply (respects_JavaVM (jvm j) 0).
Qed.

Lemma respects_dtor {P : Platform} g : respects ok (Jvm.Env.dtor g).
Proof.
  unfold Jvm.Env.dtor. destruct (detach g); [|apply respects_ret].
  apply respects_bind; [apply respects_get | intros j].
  apply (respects_JavaVM (jvm j) 0).
Qed.

Lemma respects_scoped {P : Platform} {A} daemon (body : Env -> M A) :
  (forall g, respects ok (body g)) -> respects ok (Jvm.Env.scoped daemon body).
Proof.
  intros Hb w. unfold Jvm.Env.scoped.
  pose proof (respects_ctor daemon w) as Hc.
  destruct (Jvm.Env.ctor daemon w) as [g w1|t w1|w1]; cbn in *; auto.
  pose proof (Hb g w1) as Hb1.
  destruct (body g w1) as [a w2|t w2|w2]; cbn in *.
  - pose proof (respects_dtor g w2) as Hd.
    assert (evolves ok w (final (Jvm.Env.dtor g w2)))
      by (eapply evolves_trans; [|exact Hd]; eapply evolves_trans; eauto).
    destruct (Jvm.Env.dtor g w2); cbn in *; auto.
  - pose proof (respects_dtor g w2) as Hd.
    assert (evolves ok w (final (Jvm.Env.dtor g w2)))
      by (eapply evolves_trans; [|exact Hd]; eapply evolves_trans; eauto).
    destruct (Jvm.Env.dtor g w2); cbn in *; auto.
  - eapply evolves_trans; eauto.
Qed.

Lemma respects_findClass {P : Platform} clazz :
  ok (FindClass (name clazz)) -> respects ok (Jvm.findClass clazz).
Proof.
  intros H. apply respects_scoped. intros g.
  apply respects_bind; [now apply respects_call | apply respects_CHECK_NOTNULL].
Qed.

Lemma respects_findMethod {P : Platform} clazz n returnType argTypes (isStatic : bool) :
  ok (FindClass (name clazz)) ->
  (forall cls,
     ok (if isStatic
         then GetStaticMethodID cls n (signature_stream returnType argTypes)
         else GetMethodID cls n (signature_stream returnType argTypes))) ->
  respects ok (Jvm.findMethod clazz n returnType argTypes isStatic).
Proof.
  intros Hc Hm. apply respects_scoped. intros g. cbv zeta.
  apply respects_bind; [|apply respects_CHECK_NOTNULL].
  destruct isStatic;
    (apply respects_bind;
     [now apply respects_findClass | intros cls; apply respects_call, Hm]).
Qed.

Hypothesis ok_exception : forall c, exception_call c -> ok c.

Lemma respects_check self e : respects ok (Jvm.check self e).
Proof.
  unfold Jvm.check.
  apply respects_bind; [apply respects_call, ok_exception; exact I | intros b].
  destruct (b =? JNI_TRUE); [|apply respects_ret].
  destruct (negb (exceptions self)).
  - apply respects_bind; [apply respects_call, ok_exception; exact I | intros _].
    apply respects_LOG_FATAL.
  - apply respects_bind; [apply respects_call, ok_exception; exact I | intros o].
    apply respects_bind; [apply respects_call, ok_exception; exact I | intros _].
    apply respects_throw.
Qed.

Lemma respects_findStaticField {P : Platform} self clazz n :
  ok (FindClass (name clazz)) ->
  (forall cls, ok (GetStaticFieldID cls n (ClassOps.signature clazz))) ->
  respects ok (Jvm.findStaticField self clazz n).
Proof.
  intros Hc Hf. apply respects_scoped. intros g.
  apply respects_bind; [now apply respects_findClass | intros cls].
  apply respects_bind; [apply respects_call, Hf | intros id].
  apply respects_bind; [apply respects_check | intros _; apply respects_ret].
Qed.

End Evolution.

(** ** The encoded signature *)

(** C3.  The signature built with the parameters [INT, STRING] and the
    return type [BOOLEAN] is encoded as [(ILjava/lang/String;)Z], the one
    built with no parameter and the return type [VOID] as [()V]; in general
    the encoded string is an opening parenthesis, the signature fragment of
    each parameter in order, a closing parenthesis, and the signature
    fragment of the return type, and every method lookup that [findMethod]
    makes in the virtual machine carries that string. *)
Theorem signature_determinism {P : Platform} :
  (forall c n,
     let s := built c n [ClassOps.INT; ClassOps.STRING] ClassOps.BOOLEAN in
     signature_stream (ms_returnType s) (ms_parameters s) = "(ILjava/lang/String;)Z") /\
  (forall c n,
     let s := built c n [] ClassOps.VOID in
     signature_stream (ms_returnType s) (ms_parameters s) = "()V") /\
  (forall c n ps r,
     let s := built c n ps r in
     signature_stream (ms_returnType s) (ms_parameters s)
     = "(" ++ String.concat "" (map ClassOps.signature ps)
           ++ ")" ++ ClassOps.signature r) /\
  (forall c n ps r (isStatic : bool) w,
     evolves
       (method_lookup ("(" ++ String.concat "" (map ClassOps.signature ps)
                           ++ ")" ++ ClassOps.signature r))
       w (final (Jvm.findMethod c n r ps isStatic w))).
Proof.
  split; [|split; [|split]].
  - reflexivity.
  - reflexivity.
  - intros c n ps r s. subst s. unfold built, Finder.returns. simpl.
    rewrite parameter_chain. simpl. apply signature_stream_eq.
  - intros c n ps r isStatic. apply respects_findMethod.
    + intros options v. exact I.
    + intros k Hk. destruct k; try contradiction; exact I.
    + exact I.
    + intros cls. destruct isStatic; cbn; apply signature_stream_eq.
Qed.

(** ** The exception check *)

Lemma check_no_pending self w :
  pending w = None ->
  Jvm.check self env_thread w = Returned tt (log ExceptionCheck w).
Proof.
  intros Hp. unfold Jvm.check, JNIEnv.call, bind, native_call, answer, effect.
  cbn. rewrite Hp. reflexivity.
Qed.

Lemma check_Returned self e w w' :
  Jvm.check self e w = Returned tt w' ->
  e = env_thread /\ pending w = None /\ w' = log ExceptionCheck w.
Proof.
  destruct e; [discriminate|].
  unfold Jvm.check, JNIEnv.call, bind, native_call, answer, effect. cbn.
  destruct (pending w) as [x|] eqn:Hp; cbn.
  - destruct (exceptions self); discriminate.
  - intros H. inversion H. auto.
Qed.

Lemma check_pending self w x :
  pending w = Some x ->
  (exceptions self = true ->
   exists w', Jvm.check self env_thread w = Thrown (mkThrowable x) w' /\
              trace w' = (trace w ++ [ExceptionCheck; ExceptionOccurred; ExceptionClear])%list /\
              pending w' = None) /\
  (exceptions self = false ->
   exists w', Jvm.check self env_thread w = Fatal w' /\
              trace w' = (trace w ++ [ExceptionCheck; ExceptionDescribe])%list).
Proof.
  intros Hp. unfold Jvm.check, JNIEnv.call, bind, native_call, answer, effect.
  cbn. rewrite Hp. cbn. split; intros ->; cbn.
  - rewrite Hp. eexists. split; [reflexivity|]. cbn. rewrite <- !app_assoc. auto.
  - eexists. split; [reflexivity|]. cbn. now rewrite <- !app_assoc.
Qed.

(** C1.  When the check finds a pending exception [x]: in translate mode
    it asks for the exception object, then clears the pending state, once,
    and throws an error value that holds [x]; in abort mode it has the
    exception described and the process terminates. *)
Theorem check_translates_or_aborts (self : Jvm) (w : World) (x : jobject) :
  pending w = Some x ->
  (exceptions self = true ->
   exists w', Jvm.check self env_thread w = Thrown (mkThrowable x) w' /\
              trace w' = (trace w ++ [ExceptionCheck; ExceptionOccurred; ExceptionClear])%list /\
              pending w' = None) /\
  (exceptions self = false ->
   exists w', Jvm.check self env_thread w = Fatal w' /\
              trace w' = (trace w ++ [ExceptionCheck; ExceptionDescribe])%list).
Proof. apply check_pending. Qed.

(** ** The singleton accessor *)

Lemma get_instance {P : Platform} w j :
  instance w = Some j -> Jvm.get w = Returned j w.
Proof.
  intros H. unfold Jvm.get, bind, read, ret. rewrite H. cbn. now rewrite H.
Qed.

Lemma get_Returned {P : Platform} w j w' :
  Jvm.get w = Returned j w' -> instance w' = Some j.
Proof.
  unfold Jvm.get, bind, read, ret.
  destruct (instance w) as [i|] eqn:Ei.
  - rewrite Ei. intros H. inversion H; subst. exact Ei.
  - destruct (Jvm.create _ _ _ w) as [t w1|t w1|w1]; try discriminate.
    destruct (instance w1) as [i|] eqn:E1; [|discriminate].
    intros H. inversion H; subst. exact E1.
Qed.

Lemma get_keeps_attached {P : Platform} w :
  attached w = true -> attached (final (Jvm.get w)) = true.
Proof.
  intros Ha. unfold Jvm.get, Jvm.create, bind, read, ret, modify, native_call, effect.
  destruct (instance w) as [i|] eqn:Ei; cbn.
  - rewrite Ei. exact Ha.
  - rewrite Ei.
    destruct (rvalue _ =? JNI_ERR), (rvalue _ =? JNI_OK); cbn;
      rewrite ?Ei; cbn; auto.
Qed.

(** ** The scoped attachment *)

Lemma GetEnv_attached vm v w :
  attached w = true -> vm <> NULL ->
  exists e result,
    JavaVM.GetEnv vm v w = Returned (e, result) (log (GetEnv v) w) /\
    result <> JNI_EDETACHED /\
    e = (if vm_supports w v then env_thread else env_null).
Proof.
  intros Ha Hn. unfold JavaVM.GetEnv.
  destruct (Z.eqb_spec vm NULL) as [E|_]; [contradiction|].
  unfold bind, native_call, answer, effect, ret. rewrite Ha.
  destruct (vm_supports w v); cbn; do 2 eexists; (split; [reflexivity|]);
    split; (discriminate || reflexivity).
Qed.

Lemma dtor_not_owning {P : Platform} g w :
  detach g = false -> Jvm.Env.dtor g w = Returned tt w.
Proof. intros H. unfold Jvm.Env.dtor. now rewrite H. Qed.

Lemma dtor_owning {P : Platform} g w j :
  detach g = true -> instance w = Some j -> jvm j <> NULL ->
  Jvm.Env.dtor g w
  = Returned tt (log DetachCurrentThread
                   (effect DetachCurrentThread (answer DetachCurrentThread w) w)).
Proof.
  intros Hd Hi Hn. unfold Jvm.Env.dtor. rewrite Hd.
  rewrite (bind_step _ _ _ _ _ (get_instance w j Hi)).
  unfold JavaVM.DetachCurrentThread.
  destruct (Z.eqb_spec (jvm j) NULL) as [E|_]; [contradiction|].
  reflexivity.
Qed.

Lemma ctor_attached {P : Platform} daemon w :
  attached w = true ->
  evolves (fun c => ~ attach_call c) w (final (Jvm.Env.ctor daemon w)) /\
  forall g w1, Jvm.Env.ctor daemon w = Returned g w1 ->
               detach g = false /\ attached w1 = true.
Proof.
  intros Ha. set (ok := fun c => ~ attach_call c).
  assert (Hcreate : forall options v, ok (JNI_CreateJavaVM options v))
    by (intros ? ? H; exact H).
  unfold Jvm.Env.ctor, bind.
  pose proof (respects_get ok Hcreate w) as E1.
  pose proof (get_keeps_attached w Ha) as A1.
  destruct (Jvm.get w) as [j w1|t w1|w1]; cbn in E1, A1;
    [|split; [exact E1 | discriminate]..].
  pose proof (respects_get ok Hcreate w1) as E2.
  pose proof (get_keeps_attached w1 A1) as A2.
  destruct (Jvm.get w1) as [j' w2|t w2|w2]; cbn in E2, A2;
    [|split; [eapply evolves_trans; eauto | discriminate]..].
  assert (E12 : evolves ok w w2) by (eapply evolves_trans; eauto).
  destruct (Z.eq_dec (jvm j) NULL) as [En|En].
  - unfold JavaVM.GetEnv. rewrite En. cbn. split; [exact E12 | discriminate].
  - destruct (GetEnv_attached (jvm j) (version j') w2 A2 En)
      as (e & result & -> & Hr & _).
    apply Z.eqb_neq in Hr. rewrite Hr. cbn. split.
    + eapply evolves_trans; [exact E12|].
      apply (respects_native ok (GetEnv (version j'))). intros H; exact H.
    + intros g w3 H. inversion H; subst. cbn. auto.
Qed.

Lemma ctor_owning {P : Platform} daemon w g w1 :
  Jvm.Env.ctor daemon w = Returned g w1 -> detach g = true ->
  exists l, trace w1 = (trace w ++ l)%list /\ Exists attach_call l.
Proof.
  unfold Jvm.Env.ctor. intros H Hd.
  apply bind_Returned in H as (j & wa & Ha & H).
  apply bind_Returned in H as (j' & wb & Hb & H).
  apply bind_Returned in H as ([e result] & wc & Hc & H).
  destruct (result =? JNI_EDETACHED).
  2:{ inversion H; subst. discriminate. }
  apply bind_Returned in H as (e' & wd & Hatt & H). inversion H; subst.
  pose proof (respects_get (fun _ => True) (fun _ _ => I) w) as (_ & _ & _ & la & Ta & _).
  rewrite Ha in Ta. cbn in Ta.
  pose proof (respects_get (fun _ => True) (fun _ _ => I) wa) as (_ & _ & _ & lb & Tb & _).
  rewrite Hb in Tb. cbn in Tb.
  destruct (respects_JavaVM (fun _ => True) (fun _ _ => I) (jvm j) (version j'))
    as (G & _).
  destruct (G wb) as (_ & _ & _ & lc & Tc & _). rewrite Hc in Tc. cbn in Tc.
  assert (exists c, attach_call c /\ trace w1 = (trace wc ++ [c])%list) as (c & Hca & Td).
  { destruct daemon.
    - exists AttachCurrentThreadAsDaemon. split; [exact I|].
      unfold JavaVM.AttachCurrentThreadAsDaemon in Hatt.
      destruct (jvm j =? NULL); [discriminate|].
      cbn in Hatt. inversion Hatt; subst. apply native_trace.
    - exists AttachCurrentThread. split; [exact I|].
      unfold JavaVM.AttachCurrentThread in Hatt.
      destruct (jvm j =? NULL); [discriminate|].
      cbn in Hatt. inversion Hatt; subst. apply native_trace. }
  exists (la ++ lb ++ lc ++ [c])%list. split.
  - rewrite Td, Tc, Tb, Ta, <- !app_assoc. reflexivity.
  - apply Exists_app. right. apply Exists_app. right. apply Exists_app. right.
    constructor. exact Hca.
Qed.

Lemma ctor_alive_attached {P : Platform} daemon w j :
  instance w = Some j -> jvm j <> NULL -> attached w = true ->
  Jvm.Env.ctor daemon w
  = Returned (mkEnv (if vm_supports w (version j) then env_thread else env_null) false)
             (log (GetEnv (version j)) w).
Proof.
  intros Hi Hn Ha. unfold Jvm.Env.ctor.
  rewrite (bind_step _ _ _ _ _ (get_instance w j Hi)).
  rewrite (bind_step _ _ _ _ _ (get_instance w j Hi)).
  destruct (GetEnv_attached (jvm j) (version j) w Ha Hn) as (e & result & G & Hr & ->).
  rewrite (bind_step _ _ _ _ _ G).
  apply Z.eqb_neq in Hr. now rewrite Hr.
Qed.

(** C6.  On a thread that is already attached, acquiring the guard issues
    no attach call and the guard does not own the attachment, so that its
    destruction issues no call at all.  In general a guard that does not own
    the attachment leaves the world as it is when it is destroyed; a guard
    that owns it has issued an attach call itself, and its destruction
    detaches the thread. *)
Theorem attachment_idempotence {P : Platform} :
  (forall daemon w,
     attached w = true ->
     evolves (fun c => ~ attach_call c) w (final (Jvm.Env.ctor daemon w)) /\
     (forall g w1, Jvm.Env.ctor daemon w = Returned g w1 ->
                   detach g = false /\ Jvm.Env.dtor g w1 = Returned tt w1) /\
     (alive w -> exists g w1, Jvm.Env.ctor daemon w = Returned g w1)) /\
  (forall g w, detach g = false -> Jvm.Env.dtor g w = Returned tt w) /\
  (forall daemon w g w1,
     Jvm.Env.ctor daemon w = Returned g w1 -> detach g = true ->
     exists l, trace w1 = (trace w ++ l)%list /\ Exists attach_call l) /\
  (forall g w,
     detach g = true -> alive w ->
     exists w', Jvm.Env.dtor g w = Returned tt w' /\
                trace w' = (trace w ++ [DetachCurrentThread])%list).
Proof.
  split; [|split; [|split]].
  - intros daemon w Ha. destruct (ctor_attached daemon w Ha) as [E R].
    split; [exact E | split].
    + intros g w1 H. destruct (R g w1 H) as [Hd _].
      split; [exact Hd | now apply dtor_not_owning].
    + intros (j & Hi & Hn). rewrite (ctor_alive_attached daemon w j Hi Hn Ha). eauto.
  - intros g w. apply dtor_not_owning.
  - apply @ctor_owning.
  - intros g w Hd (j & Hi & Hn). rewrite (dtor_owning g w j Hd Hi Hn).
    eexists. split; [reflexivity | apply native_trace].
Qed.

Lemma evolves_instance ok w w' j :
  evolves ok w w' -> instance w = Some j -> instance w' = Some j.
Proof. intros (_ & _ & I & _). apply I. Qed.

Lemma evolves_alive ok w w' : evolves ok w w' -> alive w -> alive w'.
Proof.
  intros E (j & Hi & Hn). exists j. split; [|exact Hn].
  eapply evolves_instance; eauto.
Qed.

Lemma ctor_Returned {P : Platform} daemon w g w1 :
  Jvm.Env.ctor daemon w = Returned g w1 -> alive w1.
Proof.
  unfold Jvm.Env.ctor. intros H.
  apply bind_Returned in H as (j & wa & Ha & H).
  apply bind_Returned in H as (j' & wb & Hb & H).
  apply bind_Returned in H as ([e result] & wc & Hc & H).
  assert (Hn : jvm j <> NULL).
  { unfold JavaVM.GetEnv in Hc.
    destruct (Z.eqb_spec (jvm j) NULL); [discriminate | assumption]. }
  assert (Hi : instance wc = Some j).
  { apply get_Returned in Ha.
    pose proof (respects_get (fun _ => True) (fun _ _ => I) wa) as E1.
    rewrite Hb in E1.
    destruct (respects_JavaVM (fun _ => True) (fun _ _ => I) (jvm j) (version j'))
      as (G & _).
    pose proof (G wb) as E2. rewrite Hc in E2.
    eapply evolves_instance; [exact E2|].
    eapply evolves_instance; [exact E1 | exact Ha]. }
  destruct (result =? JNI_EDETACHED).
  - apply bind_Returned in H as (e' & wd & Hatt & H). inversion H; subst.
    exists j. split; [|exact Hn].
    destruct (respects_JavaVM (fun _ => True) (fun _ _ => I) (jvm j) 0)
      as (_ & G1 & G2 & _).
    destruct daemon.
    + pose proof (G2 wc) as E. rewrite Hatt in E.
      eapply evolves_instance; eauto.
    + pose proof (G1 wc) as E. rewrite Hatt in E.
      eapply evolves_instance; eauto.
  - inversion H; subst. exists j. auto.
Qed.

Lemma dtor_alive {P : Platform} g w :
  alive w ->
  exists w', Jvm.Env.dtor g w = Returned tt w' /\
             pending w' = pending w /\ alive w' /\
             evolves (fun c => c = DetachCurrentThread) w w'.
Proof.
  intros Hal. destruct (detach g) eqn:Hd.
  - destruct Hal as (j & Hi & Hn).
    rewrite (dtor_owning g w j Hd Hi Hn). eexists. split; [reflexivity|].
    pose proof (evolves_step (fun c => c = DetachCurrentThread)
                  DetachCurrentThread (answer DetachCurrentThread w) w eq_refl) as E.
    split; [|split; [|exact E]].
    + now apply effect_pending.
    + eapply evolves_alive; [exact E|]. exists j. auto.
  - rewrite (dtor_not_owning g w Hd). exists w.
    split; [reflexivity | split; [reflexivity | split; [exact Hal | apply evolves_refl]]].
Qed.

Lemma scoped_Returned {P : Platform} {A} daemon (body : Env -> M A) w a w' :
  Jvm.Env.scoped daemon body w = Returned a w' ->
  exists g w1 w2,
    Jvm.Env.ctor daemon w = Returned g w1 /\
    body g w1 = Returned a w2 /\
    Jvm.Env.dtor g w2 = Returned tt w'.
Proof.
  unfold Jvm.Env.scoped.
  destruct (Jvm.Env.ctor daemon w) as [g w1|t w1|w1]; try discriminate.
  destruct (body g w1) as [b w2|t w2|w2] eqn:Hb; try discriminate.
  - destruct (Jvm.Env.dtor g w2) as [[] w3|t w3|w3] eqn:Hd; try discriminate.
    intros H. inversion H; subst. exists g, w1, w2. auto.
  - destruct (Jvm.Env.dtor g w2) as [u w3|t' w3|w3]; discriminate.
Qed.

Lemma scoped_alive_attached {P : Platform} {A} daemon (body : Env -> M A) w j :
  instance w = Some j -> jvm j <> NULL -> attached w = true ->
  Jvm.Env.scoped daemon body w
  = body (mkEnv (if vm_supports w (version j) then env_thread else env_null) false)
         (log (GetEnv (version j)) w).
Proof.
  intros Hi Hn Ha. unfold Jvm.Env.scoped.
  rewrite (ctor_alive_attached daemon w j Hi Hn Ha).
  destruct (body _ _) as [a w2|t w2|w2]; cbn; reflexivity.
Qed.

(** ** The entry points *)

Lemma enter_factor {P : Platform} self ep w :
  enter self ep w
  = Jvm.Env.scoped default_daemon (fun g =>
      cls <- resolve ep ;;
      x <- JNIEnv.call (env g) (underlying ep cls) ;;
      Jvm.check self (env g) ;;
      ret (decoded ep x)) w.
Proof.
  destruct ep as [[|t] r id a|[|t] r id a|c a|t f|r m a|m a]; try reflexivity.
  cbn [enter]. unfold Jvm.invoke_ctor, Jvm.Env.scoped, bind at 1.
  destruct (Jvm.Env.ctor default_daemon w) as [g w1|t w1|w1]; try reflexivity.
  unfold resolve. cbn [looked_up underlying decoded]. unfold bind.
  destruct (Jvm.findClass (ctor_clazz c) w1) as [cls w2|t w2|w2];
    [|destruct (Jvm.Env.dtor g w2); reflexivity | reflexivity].
  destruct (JNIEnv.call (env g) _ w2) as [x w3|t w3|w3];
    [|destruct (Jvm.Env.dtor g w3); reflexivity | reflexivity].
  destruct (Jvm.check self (env g) w3) as [u w4|t w4|w4];
    [|destruct (Jvm.Env.dtor g w4); reflexivity | reflexivity].
  cbn. destruct (Jvm.Env.dtor g w4); reflexivity.
Qed.

Lemma respects_resolve {P : Platform} ep : respects (fun _ => True) (resolve ep).
Proof.
  unfold resolve. destruct (looked_up ep).
  - now apply respects_findClass.
  - apply respects_ret.
Qed.

Lemma enter_Returned {P : Platform} self ep w v w' :
  enter self ep w = Returned v w' ->
  exists g w1 cls w2 r w3,
    Jvm.Env.ctor default_daemon w = Returned g w1 /\
    resolve ep w1 = Returned cls w2 /\
    JNIEnv.call (env g) (underlying ep cls) w2 = Returned r w3 /\
    pending w3 = None /\ v = decoded ep r.
Proof.
  rewrite enter_factor. intros H.
  apply scoped_Returned in H as (g & w1 & w4 & Hctor & H & _).
  apply bind_Returned in H as (cls & w2 & Hres & H).
  apply bind_Returned in H as (r & w3 & Hcall & H).
  apply bind_Returned in H as ([] & w5 & Hcheck & H).
  apply check_Returned in Hcheck as (_ & Hp & _).
  inversion H; subst.
  exists g, w1, cls, w2, r, w3. auto.
Qed.

(** C2.  Every entry point acquires the attachment, looks up the class it
    needs, makes its native call, runs the exception check and only then
    returns the decoded value.  If the native call leaves an exception [x]
    pending, the entry point does not return: in translate mode it throws
    the error value that holds [x], with no exception left pending, and in
    abort mode the process terminates. *)
Theorem exception_check_funnel {P : Platform} (self : Jvm) (ep : EntryPoint)
    (w : World) :
  enter self ep w
  = Jvm.Env.scoped default_daemon (fun g =>
      cls <- resolve ep ;;
      r <- JNIEnv.call (env g) (underlying ep cls) ;;
      Jvm.check self (env g) ;;
      ret (decoded ep r)) w /\
  (forall g w1 cls w2 r w3 x,
    Jvm.Env.ctor default_daemon w = Returned g w1 ->
    resolve ep w1 = Returned cls w2 ->
    JNIEnv.call (env g) (underlying ep cls) w2 = Returned r w3 ->
    pending w3 = Some x ->
    (forall v w', enter self ep w <> Returned v w') /\
    (exceptions self = true ->
     exists w', enter self ep w = Thrown (mkThrowable x) w' /\ pending w' = None) /\
    (exceptions self = false -> exists w', enter self ep w = Fatal w')) /\
  (forall v w',
    enter self ep w = Returned v w' ->
    exists g w1 cls w2 r w3,
      Jvm.Env.ctor default_daemon w = Returned g w1 /\
      resolve ep w1 = Returned cls w2 /\
      JNIEnv.call (env g) (underlying ep cls) w2 = Returned r w3 /\
      pending w3 = None /\ v = decoded ep r).
Proof.
  split; [apply enter_factor|]. split; [|apply enter_Returned].
  intros g w1 cls w2 r w3 x Hctor Hres Hcall Hp.
  pose proof (enter_factor self ep w) as E.
  unfold Jvm.Env.scoped in E. rewrite Hctor in E.
  rewrite (bind_step _ _ _ _ _ Hres), (bind_step _ _ _ _ _ Hcall) in E.
  destruct (call_Returned _ _ _ _ _ Hcall) as (He & _ & _). rewrite He in *.
  destruct (check_pending self w3 x Hp) as [Ht Ha].
  destruct (exceptions self) eqn:Hx.
  - destruct (Ht eq_refl) as (w4 & Hc & _ & Hp4).
    unfold bind in E. rewrite Hc in E.
    assert (Hal : alive w4).
    { pose proof (ctor_Returned _ _ _ _ Hctor) as Hal1.
      pose proof (respects_resolve ep w1) as E1. rewrite Hres in E1.
      pose proof (respects_call (fun _ => True) env_thread (underlying ep cls) I w2) as E2.
      rewrite Hcall in E2.
      pose proof (respects_check (fun _ => True) (fun _ _ => I) self env_thread w3) as E3.
      rewrite Hc in E3. cbn in E1, E2, E3.
      eapply evolves_alive; [exact E3|].
      eapply evolves_alive; [exact E2|].
      eapply evolves_alive; [exact E1 | exact Hal1]. }
    destruct (dtor_alive g w4 Hal) as (w5 & Hd & Hp5 & _).
    rewrite Hd in E. rewrite E.
    split; [discriminate | split; [|discriminate]].
    intros _. exists w5. split; [reflexivity | congruence].
  - destruct (Ha eq_refl) as (w4 & Hc & _).
    unfold bind in E. rewrite Hc in E. rewrite E.
    split; [discriminate | split; [discriminate|]].
    intros _. exists w4. reflexivity.
Qed.

(** ** Every function of the bridge keeps the instance *)

Ltac respect_all :=
  repeat first
    [ apply respects_ret
    | apply respects_throw
    | apply respects_LOG_FATAL
    | apply respects_CHECK_NOTNULL
    | apply respects_read
    | apply respects_call; exact I
    | apply respects_check; intros; exact I
    | apply respects_get; intros; exact I
    | apply respects_create; intros; exact I
    | apply respects_findClass; [intros; exact I | intros; exact I | exact I]
    | apply respects_findStaticField; intros; exact I
    | apply respects_scoped; [intros; exact I | intros; exact I | intros ?]
    | apply respects_bind; [|intros ?]
    | match goal with
      | |- respects _ (if ?b then _ else _) => destruct b
      | |- respects _ (match ?x with _ => _ end) => destruct x
      end ].

Lemma respects_all_findMethod {P : Platform} clazz n returnType argTypes (isStatic : bool) :
  respects (fun _ => True) (Jvm.findMethod clazz n returnType argTypes isStatic).
Proof.
  apply respects_findMethod; intros; exact I.
Qed.

Lemma respects_all_enter {P : Platform} self ep :
  respects (fun _ => True) (enter self ep).
Proof.
  intros w. rewrite enter_factor.
  revert w. change (respects (fun _ => True)
    (Jvm.Env.scoped default_daemon (fun g =>
      cls <- resolve ep ;;
      x <- JNIEnv.call (env g) (underlying ep cls) ;;
      Jvm.check self (env g) ;;
      ret (decoded ep x)))).
  apply respects_scoped; try (intros; exact I). intros g.
  apply respects_bind; [apply respects_resolve | intros cls].
  respect_all.
Qed.

Lemma respects_all_member {P : Platform} self m :
  respects (fun _ => True) (member self m).
Proof.
  destruct m; cbn [member];
    unfold Jvm.string_, Jvm.findConstructor, Jvm.findMethod_signature,
      Jvm.findStaticMethod, Jvm.newGlobalRef, Jvm.deleteGlobalRef;
    try (apply respects_bind; [|intros; apply respects_ret]);
    try apply respects_all_findMethod;
    try apply respects_all_enter;
    respect_all.
Qed.

Lemma respects_all_perform {P : Platform} c :
  respects (fun _ => True) (perform c).
Proof.
  destruct c; cbn [perform]; unfold Jvm.created.
  - respect_all.
  - respect_all.
  - respect_all.
  - apply respects_bind; [respect_all | intros self].
    apply respects_bind; [apply respects_all_member | intros; apply respects_ret].
Qed.

(** ** Creation of the runtime *)

Lemma create_existing options v exc w j :
  instance w = Some j ->
  Jvm.create options v exc w
  = Returned (TryError "Java Virtual Machine already created") w.
Proof.
  intros H. unfold Jvm.create, bind, read. now rewrite H.
Qed.

Lemma create_fresh options v exc w :
  instance w = None ->
  let c := JNI_CreateJavaVM options v in
  let r := answer c w in
  let w1 := log c (effect c r w) in
  let j := mkJvm (rhandle r) v exc in
  Jvm.create options v exc w
  = if rvalue r =? JNI_ERR
    then Returned (TryError "Failed to create JVM!") w1
    else Returned (TrySome j) (add_atexit deleter (set_instance (Some j) w1)).
Proof.
  intros H. cbv zeta. unfold Jvm.create, bind, read, native_call. rewrite H.
  destruct (_ =? JNI_ERR); reflexivity.
Qed.

Lemma create_returns options v exc w :
  exists t w', Jvm.create options v exc w = Returned t w'.
Proof.
  destruct (instance w) as [j|] eqn:Hi.
  - rewrite (create_existing _ _ _ _ j Hi). eauto.
  - rewrite (create_fresh _ _ _ _ Hi). destruct (_ =? JNI_ERR); eauto.
Qed.

Lemma create_success options v exc w j w' :
  Jvm.create options v exc w = Returned (TrySome j) w' -> instance w' = Some j.
Proof.
  destruct (instance w) as [i|] eqn:Hi.
  - rewrite (create_existing _ _ _ _ i Hi). discriminate.
  - rewrite (create_fresh _ _ _ _ Hi). destruct (_ =? JNI_ERR); [discriminate|].
    intros H. inversion H; subst. reflexivity.
Qed.

(** C7.  [create] compares the result of [JNI_CreateJavaVM] with [JNI_ERR]
    only.  For that result it returns the error "Failed to create JVM!" and
    leaves no instance; for every other result, the other error codes of
    the native interface included, it stores an instance holding whatever
    handle the call left and returns it as a success. *)
Theorem create_checks_JNI_ERR_only (options : list string) (v : Z) (exc : bool)
    (w : World) :
  instance w = None ->
  let r := answer (JNI_CreateJavaVM options v) w in
  (rvalue r = JNI_ERR ->
   exists w', Jvm.create options v exc w
              = Returned (TryError "Failed to create JVM!") w' /\
              instance w' = None) /\
  (In (rvalue r) [JNI_EDETACHED; JNI_EVERSION; JNI_ENOMEM; JNI_EEXIST; JNI_EINVAL] ->
   exists w', Jvm.create options v exc w
              = Returned (TrySome (mkJvm (rhandle r) v exc)) w' /\
              instance w' = Some (mkJvm (rhandle r) v exc)).
Proof.
  intros Hi r. rewrite (create_fresh _ _ _ _ Hi). fold r. split.
  - intros ->. cbn. eexists. split; [reflexivity|].
    destruct (effect_frame (JNI_CreateJavaVM options v) r w) as (_ & _ & I & _).
    cbn. congruence.
  - intros Hin.
    assert (E : (rvalue r =? JNI_ERR) = false).
    { apply Z.eqb_neq. cbn in Hin.
      unfold JNI_EDETACHED, JNI_EVERSION, JNI_ENOMEM, JNI_EEXIST, JNI_EINVAL, JNI_ERR in *.
      lia. }
    rewrite E. eexists. split; reflexivity.
Qed.

Lemma perform_keeps_instance {P : Platform} c w j :
  instance w = Some j -> instance (final (perform c w)) = Some j.
Proof.
  intros H. eapply evolves_instance; [apply respects_all_perform | exact H].
Qed.

Lemma perform_established {P : Platform} c w :
  match perform c w with
  | Returned o w' => established (c, o) = true -> instance w' <> None
  | Thrown t w' => established (c, threw t) = true -> instance w' <> None
  | Fatal _ => True
  end.
Proof.
  destruct c as [options v exc| | |m]; cbn [perform].
  - unfold bind. destruct (create_returns options v exc w) as (t & w' & E).
    rewrite E. cbn. destruct t as [j|msg]; [|discriminate].
    intros _. now rewrite (create_success _ _ _ _ _ _ E).
  - unfold Jvm.created, bind, read, ret. discriminate.
  - unfold bind at 1. destruct (Jvm.get w) as [j w'|t w'|w'] eqn:G; cbn; auto.
    + intros _. rewrite (get_Returned _ _ _ G). discriminate.
    + intros _.
      destruct (instance w) as [i|] eqn:Hi.
      * rewrite (get_instance w i Hi) in G. discriminate.
      * revert G. unfold Jvm.get, bind, read, ret. rewrite Hi.
        destruct (create_returns default_options default_version default_exceptions w)
          as (u & w1 & ->).
        destruct (instance w1); discriminate.
  - unfold bind at 1. destruct (Jvm.get w) as [j w1|t w1|w1] eqn:G; cbn; auto.
    + apply get_Returned in G.
      pose proof (respects_all_member j m w1) as E.
      apply evolves_instance with (j := j) in E; [|exact G].
      unfold bind. destruct (member j m w1) as [u w2|t w2|w2]; cbn in *;
        auto; intros _; congruence.
    + intros _.
      destruct (instance w) as [i|] eqn:Hi.
      * rewrite (get_instance w i Hi) in G. discriminate.
      * revert G. unfold Jvm.get, bind, read, ret. rewrite Hi.
        destruct (create_returns default_options default_version default_exceptions w)
          as (u & w2 & ->).
        destruct (instance w2); discriminate.
Qed.

Lemma run_refused {P : Platform} calls w :
  instance w <> None -> Forall refused (fst (run calls w)).
Proof.
  revert w; induction calls as [|c rest IH]; intros w Hi; cbn [run].
  - constructor.
  - destruct (instance w) as [j|] eqn:Ej; [|contradiction].
    pose proof (perform_keeps_instance c w j Ej) as K.
    assert (R : forall o w', perform c w = Returned o w' -> refused (c, o)).
    { intros o w' E options v exc Hc. cbn in Hc. subst c. cbn in E.
      unfold bind in E. rewrite (create_existing _ _ _ _ j Ej) in E.
      inversion E. reflexivity. }
    destruct (perform c w) as [o w'|t w'|w'] eqn:E; cbn in K.
    + assert (Hn : instance w' <> None) by congruence.
      specialize (IH w' Hn). destruct (run rest w') as [l wf]. cbn [fst] in *.
      constructor; [exact (R o w' eq_refl) | exact IH].
    + assert (Hn : instance w' <> None) by congruence.
      specialize (IH w' Hn). destruct (run rest w') as [l wf]. cbn [fst] in *.
      constructor; [|exact IH].
      intros options v exc Hc. cbn in Hc. subst c. cbn in E.
      unfold bind in E. rewrite (create_existing _ _ _ _ j Ej) in E. discriminate.
    + constructor.
Qed.

Lemma run_after_established {P : Platform} calls w pre e post :
  fst (run calls w) = (pre ++ e :: post)%list ->
  established e = true -> Forall refused post.
Proof.
  revert w pre; induction calls as [|c rest IH]; intros w pre; cbn [run].
  - destruct pre; discriminate.
  - pose proof (perform_established c w) as Hest.
    destruct (perform c w) as [o w'|t w'|w'].
    + destruct (run rest w') as [l wf] eqn:R. cbn [fst]. intros H He.
      destruct pre as [|x pre]; cbn in H; inversion H; subst.
      * pose proof (run_refused rest w' (Hest He)) as F. now rewrite R in F.
      * apply (IH w' pre); [now rewrite R | exact He].
    + destruct (run rest w') as [l wf] eqn:R. cbn [fst]. intros H He.
      destruct pre as [|x pre]; cbn in H; inversion H; subst.
      * pose proof (run_refused rest w' (Hest He)) as F. now rewrite R in F.
      * apply (IH w' pre); [now rewrite R | exact He].
    + cbn. destruct pre; discriminate.
Qed.


Lemma perform_succeeded {P : Platform} c w o w' :
  perform c w = Returned o w' -> create_succeeded (c, o) = true ->
  exists options v exc, c = call_create options v exc.
Proof.
  destruct c as [options v exc| | |m]; cbn [perform]; intros H S.
  - eauto.
  - apply bind_Returned in H as (b & w1 & _ & H). inversion H; subst. discriminate.
  - apply bind_Returned in H as (b & w1 & _ & H). inversion H; subst. discriminate.
  - apply bind_Returned in H as (b & w1 & _ & H).
    apply bind_Returned in H as (u & w2 & _ & H). inversion H; subst. discriminate.
Qed.

Lemma run_no_success {P : Platform} calls w :
  instance w <> None -> filter create_succeeded (fst (run calls w)) = [].
Proof.
  revert w; induction calls as [|c rest IH]; intros w Hi; cbn [run]; [reflexivity|].
  destruct (instance w) as [j|] eqn:Ej; [|contradiction].
  pose proof (perform_keeps_instance c w j Ej) as K.
  destruct (perform c w) as [o w'|t w'|w'] eqn:E; cbn in K; [| |reflexivity].
  - assert (Hn : instance w' <> None) by congruence.
    specialize (IH w' Hn). destruct (run rest w') as [l wf]. cbn [fst filter] in *.
    rewrite IH. destruct (create_succeeded (c, o)) eqn:S; [|reflexivity].
    destruct (perform_succeeded c w o w' E S) as (options & v & exc & ->).
    cbn in E. unfold bind in E. rewrite (create_existing _ _ _ _ j Ej) in E.
    inversion E; subst. discriminate.
  - assert (Hn : instance w' <> None) by congruence.
    specialize (IH w' Hn). destruct (run rest w') as [l wf]. cbn [fst filter] in *.
    exact IH.
Qed.

Lemma run_one_success {P : Platform} calls w :
  (List.length (filter create_succeeded (fst (run calls w))) <= 1)%nat.
Proof.
  revert w; induction calls as [|c rest IH]; intros w; cbn [run]; [cbn; lia|].
  pose proof (perform_established c w) as Hest.
  destruct (perform c w) as [o w'|t w'|w'] eqn:E; [| |cbn; lia].
  - specialize (IH w'). pose proof (run_no_success rest w') as N.
    destruct (run rest w') as [l wf]. cbn [fst filter] in *.
    destruct (create_succeeded (c, o)) eqn:S; [|exact IH].
    rewrite N; [cbn; lia|]. apply Hest. unfold established. now rewrite S.
  - specialize (IH w'). destruct (run rest w') as [l wf]. cbn [fst filter] in *.
    exact IH.
Qed.

(** C5.  [create] always returns a value, and never throws.  In the log
    of any sequence of calls run from any world, at most one call of
    [create] succeeded, and every call of [create] made after a successful
    one, or after any call that went through [get], returned the error
    "Java Virtual Machine already created" whatever its arguments. *)
Theorem create_at_most_once {P : Platform} (calls : list Call) (w : World) :
  (forall options v exc w0,
     exists t w1, Jvm.create options v exc w0 = Returned t w1) /\
  (forall pre e post,
     fst (run calls w) = (pre ++ e :: post)%list ->
     established e = true ->
     Forall refused post) /\
  (List.length (filter create_succeeded (fst (run calls w))) <= 1)%nat.
Proof.
  split; [|split].
  - intros. apply create_returns.
  - apply run_after_established.
  - apply run_one_success.
Qed.

(** ** Functions that do not throw *)

Lemma never_throws_bind {A B} (m : M A) (k : A -> M B) :
  never_throws m -> (forall a, never_throws (k a)) -> never_throws (bind m k).
Proof.
  intros Hm Hk w t w'. unfold bind.
  destruct (m w) as [a w1|t1 w1|w1] eqn:E.
  - apply Hk.
  - exfalso. exact (Hm _ _ _ E).
  - discriminate.
Qed.

Lemma never_throws_ret {A} (a : A) : never_throws (ret a).
Proof. intros w t w'. discriminate. Qed.

Lemma never_throws_native c : never_throws (native_call c).
Proof. intros w t w'. discriminate. Qed.

Lemma never_throws_get {P : Platform} : never_throws Jvm.get.
Proof.
  intros w t w'. unfold Jvm.get, bind, read, ret.
  destruct (instance w) as [j|] eqn:Hi.
  - rewrite Hi. discriminate.
  - destruct (create_returns default_options default_version default_exceptions w)
      as (u & w1 & ->).
    destruct (instance w1); discriminate.
Qed.

Lemma never_throws_JavaVM vm v :
  never_throws (JavaVM.GetEnv vm v) /\
  never_throws (JavaVM.AttachCurrentThread vm) /\
  never_throws (JavaVM.AttachCurrentThreadAsDaemon vm) /\
  never_throws (JavaVM.DetachCurrentThread vm).
Proof.
  unfold JavaVM.GetEnv, JavaVM.AttachCurrentThread,
    JavaVM.AttachCurrentThreadAsDaemon, JavaVM.DetachCurrentThread.
  destruct (vm =? NULL); repeat split; intros w t w'; discriminate.
Qed.

Lemma never_throws_ctor {P : Platform} daemon : never_throws (Jvm.Env.ctor daemon).
Proof.
  unfold Jvm.Env.ctor.
  apply never_throws_bind; [apply never_throws_get | intros j].
  apply never_throws_bind; [apply never_throws_get | intros j'].
  apply never_throws_bind; [apply never_throws_JavaVM | intros [e result]].
  destruct (result =? JNI_EDETACHED); [|apply never_throws_ret].
  apply never_throws_bind; [|intros; apply never_throws_ret].
  destruct daemon; apply (never_throws_JavaVM (jvm j) 0).
Qed.

Lemma never_throws_dtor {P : Platform} g : never_throws (Jvm.Env.dtor g).
Proof.
  unfold Jvm.Env.dtor. destruct (detach g); [|apply never_throws_ret].
  apply never_throws_bind; [apply never_throws_get | intros j].
  apply (never_throws_JavaVM (jvm j) 0).
Qed.

Lemma never_throws_scoped {P : Platform} {A} daemon (body : Env -> M A) :
  (forall g, never_throws (body g)) -> never_throws (Jvm.Env.scoped daemon body).
Proof.
  intros Hb w t w'. unfold Jvm.Env.scoped.
  destruct (Jvm.Env.ctor daemon w) as [g w1|t1 w1|w1] eqn:Ec.
  - destruct (body g w1) as [a w2|t2 w2|w2] eqn:Eb.
    + destruct (Jvm.Env.dtor g w2) as [u w3|t3 w3|w3] eqn:Ed; try discriminate.
      exfalso. exact (never_throws_dtor _ _ _ _ Ed).
    + exfalso. exact (Hb _ _ _ _ Eb).
    + discriminate.
  - exfalso. exact (never_throws_ctor _ _ _ _ Ec).
  - discriminate.
Qed.

Lemma ctor_alive {P : Platform} daemon w :
  alive w -> exists g w1, Jvm.Env.ctor daemon w = Returned g w1.
Proof.
  intros (j & Hi & Hn). unfold Jvm.Env.ctor.
  rewrite (bind_step _ _ _ _ _ (get_instance w j Hi)).
  rewrite (bind_step _ _ _ _ _ (get_instance w j Hi)).
  unfold JavaVM.GetEnv, JavaVM.AttachCurrentThread, JavaVM.AttachCurrentThreadAsDaemon.
  destruct (Z.eqb_spec (jvm j) NULL) as [E|_]; [contradiction|].
  unfold bind, native_call, ret.
  destruct (_ =? JNI_EDETACHED); [destruct daemon|]; eauto.
Qed.

(** ** Global references *)

(** C8.  [deleteGlobalRef] with a null reference issues attachment calls
    only, hence no [DeleteGlobalRef]; it leaves the pending exception as it
    was and throws nothing; with a runtime that is alive it returns. *)
Theorem deleteGlobalRef_null {P : Platform} (w : World) :
  (exists l, trace (final (Jvm.deleteGlobalRef NULL w)) = (trace w ++ l)%list /\
             Forall attachment_call l /\
             (forall o, ~ In (DeleteGlobalRef o) l)) /\
  pending (final (Jvm.deleteGlobalRef NULL w)) = pending w /\
  (forall t w', Jvm.deleteGlobalRef NULL w <> Thrown t w') /\
  (alive w -> exists w', Jvm.deleteGlobalRef NULL w = Returned tt w').
Proof.
  assert (R : respects attachment_call (Jvm.deleteGlobalRef NULL)).
  { apply respects_scoped.
    - intros; exact I.
    - intros c H. destruct c; try contradiction; exact I.
    - intros g. apply respects_ret. }
  destruct (R w) as (_ & _ & _ & l & T & F & Q).
  split; [|split; [|split]].
  - exists l. split; [exact T | split; [exact F|]].
    intros o Hin. rewrite Forall_forall in F. exact (F _ Hin).
  - apply Q, F.
  - apply never_throws_scoped. intros g. apply never_throws_ret.
  - intros Hal. unfold Jvm.deleteGlobalRef, Jvm.Env.scoped.
    destruct (ctor_alive default_daemon w Hal) as (g & w1 & Hc). rewrite Hc.
    cbn [negb Z.eqb NULL ret].
    destruct (dtor_alive g w1 (ctor_Returned _ _ _ _ Hc)) as (w2 & Hd & _).
    rewrite Hd. eauto.
Qed.

(** ** Lookups in a world that is ready *)

Lemma scoped_ready {P : Platform} {A} daemon (body : Env -> M A) w j :
  ready w j ->
  Jvm.Env.scoped daemon body w
  = body (mkEnv env_thread false) (log (GetEnv (version j)) w)
  /\ ready (log (GetEnv (version j)) w) j.
Proof.
  intros (Hi & Hn & Ha & Hs). split.
  - rewrite (scoped_alive_attached daemon body w j Hi Hn Ha). now rewrite Hs.
  - repeat split; assumption.
Qed.

Lemma call_ready c w j :
  ready w j -> ~ thread_call c ->
  (forall options v, c <> JNI_CreateJavaVM options v) ->
  JNIEnv.call env_thread c w
  = Returned (rvalue (answer c w)) (log c (effect c (answer c w) w))
  /\ ready (log c (effect c (answer c w) w)) j.
Proof.
  intros (Hi & Hn & Ha & Hs) Hc Hc'. split; [reflexivity|].
  destruct (effect_frame c (answer c w) w) as (_ & S & Ei & _ & _).
  repeat split; cbn; try congruence.
  unfold effect. destruct c; cbn; try exact Ha;
    try (exfalso; apply Hc; exact I);
    try (exfalso; eapply Hc'; reflexivity);
    destruct (rthrows _); exact Ha.
Qed.

Lemma findClass_ready {P : Platform} clazz w j :
  ready w j ->
  let w1 := log (GetEnv (version j)) w in
  let c := FindClass (name clazz) in
  let w2 := log c (effect c (answer c w1) w1) in
  Jvm.findClass clazz w
  = (if rvalue (answer c w1) =? NULL then Fatal w2
     else Returned (rvalue (answer c w1)) w2)
  /\ ready w2 j.
Proof.
  intros Hr. cbv zeta. unfold Jvm.findClass.
  destruct (scoped_ready default_daemon
              (fun g => c <- JNIEnv.call (env g) (FindClass (name clazz)) ;;
                        CHECK_NOTNULL c) w j Hr) as [-> Hr1].
  cbn [env].
  destruct (call_ready (FindClass (name clazz)) _ j Hr1) as [E Hr2];
    [intros H; exact H | discriminate |].
  rewrite (bind_step _ _ _ _ _ E). split; [|exact Hr2].
  unfold CHECK_NOTNULL. destruct (_ =? NULL); reflexivity.
Qed.

Lemma answer_reply c w :
  ~ thread_call c -> ~ exception_call c ->
  answer c w = vm_reply w (trace w) c.
Proof.
  intros H1 H2. unfold answer. destruct c; try reflexivity;
    exfalso; (apply H1; exact I) || (apply H2; exact I).
Qed.

Lemma step_reply c r w :
  vm_reply (log c (effect c r w)) = vm_reply w.
Proof. destruct (effect_frame c r w) as (R & _). exact R. Qed.

Lemma findMethod_ready {P : Platform} clazz n returnType argTypes (isStatic : bool) w j :
  ready w j ->
  let t0 := (trace w ++ [GetEnv (version j); GetEnv (version j)])%list in
  let cF := FindClass (name clazz) in
  let cls := rvalue (vm_reply w t0 cF) in
  let cM := if isStatic
            then GetStaticMethodID cls n (signature_stream returnType argTypes)
            else GetMethodID cls n (signature_stream returnType argTypes) in
  let id := rvalue (vm_reply w (t0 ++ [cF]) cM) in
  cls <> NULL -> id <> NULL ->
  exists w', Jvm.findMethod clazz n returnType argTypes isStatic w = Returned id w' /\
             trace w' = (t0 ++ [cF; cM])%list.
Proof.
  intros Hr t0 cF cls cM id Hcls Hid. unfold Jvm.findMethod.
  match goal with
  | |- context [Jvm.Env.scoped _ ?b w] =>
      destruct (scoped_ready default_daemon b w j Hr) as [-> Hr1]
  end.
  cbn [env]. cbv zeta.
  set (w1 := log (GetEnv (version j)) w) in *.
  destruct (findClass_ready clazz w1 j Hr1) as [Efc Hr3]. cbv zeta in Efc, Hr3.
  set (w2 := log (GetEnv (version j)) w1) in *.
  assert (Ea : answer cF w2 = vm_reply w t0 cF).
  { rewrite answer_reply by (intros H; exact H). subst w2 w1 t0. cbn.
    now rewrite <- app_assoc. }
  fold cF in Efc, Hr3. rewrite Ea in Efc, Hr3. fold cls in Efc.
  apply Z.eqb_neq in Hcls. rewrite Hcls in Efc.
  set (w3 := log cF (effect cF (vm_reply w t0 cF) w2)) in *.
  assert (T3 : trace w3 = (t0 ++ [cF])%list).
  { subst w3. rewrite native_trace. subst w2 w1 t0. cbn. now rewrite <- !app_assoc. }
  assert (R3 : vm_reply w3 = vm_reply w) by (subst w3; now rewrite step_reply).
  assert (Em : answer cM w3 = vm_reply w (t0 ++ [cF]) cM).
  { rewrite answer_reply, R3, T3; [reflexivity | |];
      subst cM; destruct isStatic; intros H; exact H. }
  destruct (call_ready cM w3 j Hr3) as [Ec _].
  { subst cM; destruct isStatic; intros H; exact H. }
  { subst cM; destruct isStatic; discriminate. }
  rewrite Em in Ec. fold id in Ec.
  exists (log cM (effect cM (vm_reply w (t0 ++ [cF]) cM) w3)). split.
  - assert (Eb : (if isStatic
                  then cls0 <- Jvm.findClass clazz ;;
                       JNIEnv.call env_thread
                         (GetStaticMethodID cls0 n (signature_stream returnType argTypes))
                  else cls0 <- Jvm.findClass clazz ;;
                       JNIEnv.call env_thread
                         (GetMethodID cls0 n (signature_stream returnType argTypes))) w1
                 = Returned id (log cM (effect cM (vm_reply w (t0 ++ [cF]) cM) w3))).
    { subst cM. destruct isStatic; rewrite (bind_step _ _ _ _ _ Efc); exact Ec. }
    rewrite (bind_step _ _ _ _ _ Eb). unfold CHECK_NOTNULL.
    apply Z.eqb_neq in Hid. now rewrite Hid.
  - rewrite native_trace, T3, <- app_assoc. reflexivity.
Qed.

Lemma findMethod_Returned {P : Platform} clazz n returnType argTypes (isStatic : bool)
    w id w' :
  Jvm.findMethod clazz n returnType argTypes isStatic w = Returned id w' ->
  id <> NULL /\
  exists g cls wa wb wc,
    Jvm.findClass clazz wa = Returned cls wb /\
    JNIEnv.call (env g)
      (if isStatic
       then GetStaticMethodID cls n (signature_stream returnType argTypes)
       else GetMethodID cls n (signature_stream returnType argTypes)) wb
    = Returned id wc.
Proof.
  unfold Jvm.findMethod. intros H.
  apply scoped_Returned in H as (g & w1 & w2 & _ & H & _). cbv zeta in H.
  apply bind_Returned in H as (id0 & w3 & H & Hn).
  apply CHECK_NOTNULL_Returned in Hn as (E1 & Hn & E2). subst.
  split; [exact Hn|].
  destruct isStatic; apply bind_Returned in H as (cls & wb & Hf & Hc);
    exists g, cls, w1, wb, w3; auto.
Qed.

Lemma constructor_signature ps :
  signature_stream ClassOps.VOID ps
  = "(" ++ String.concat "" (map ClassOps.signature ps) ++ ")V".
Proof. rewrite signature_stream_eq. reflexivity. Qed.

(** C9.  [findConstructor] is the private [findMethod] applied to the
    owning type of the finder, the name [<init>], the return type [VOID],
    the parameters of the finder and non-static resolution, with the
    identifier wrapped together with the owning type.  Its native calls
    are attachment calls, [FindClass] on the owning type and [GetMethodID]
    with the name [<init>] and the signature made of the parameters in
    order and [V]; never [GetStaticMethodID].  The handle it returns pairs
    the owning type with the identifier that [GetMethodID] answered, and
    in a ready world where the class and the constructor are found it does
    return.  A finder holds its parameters in the order in which they were
    given. *)
Theorem findConstructor_lookup {P : Platform} (finder : ConstructorFinder) (w : World) :
  let clazz := cf_clazz finder in
  let sig := "(" ++ String.concat "" (map ClassOps.signature (cf_parameters finder))
                 ++ ")V" in
  Jvm.findConstructor finder w
  = match Jvm.findMethod clazz "<init>" ClassOps.VOID (cf_parameters finder) false w with
    | Returned id w' => Returned (mkConstructor clazz id) w'
    | Thrown t w' => Thrown t w'
    | Fatal w' => Fatal w'
    end /\
  evolves (constructor_lookup finder) w (final (Jvm.findConstructor finder w)) /\
  (forall c w',
     Jvm.findConstructor finder w = Returned c w' ->
     ctor_clazz c = clazz /\ ctor_id c <> NULL /\
     exists g cls wa wb wc,
       Jvm.findClass clazz wa = Returned cls wb /\
       JNIEnv.call (env g) (GetMethodID cls "<init>" sig) wb
       = Returned (ctor_id c) wc) /\
  (forall j,
     ready w j ->
     let t0 := (trace w ++ [GetEnv (version j); GetEnv (version j)])%list in
     let cls := rvalue (vm_reply w t0 (FindClass (name clazz))) in
     let id := rvalue (vm_reply w (t0 ++ [FindClass (name clazz)])
                         (GetMethodID cls "<init>" sig)) in
     cls <> NULL -> id <> NULL ->
     exists w',
       Jvm.findConstructor finder w = Returned (mkConstructor clazz id) w' /\
       trace w' = (t0 ++ [FindClass (name clazz); GetMethodID cls "<init>" sig])%list) /\
  (forall c ps,
     cf_parameters (fold_left Finder.ctor_parameter ps (Finder.constructor c)) = ps /\
     cf_clazz (fold_left Finder.ctor_parameter ps (Finder.constructor c)) = c).
Proof.
  intros clazz sig.
  assert (Es : signature_stream ClassOps.VOID (cf_parameters finder) = sig)
    by apply constructor_signature.
  split; [|split; [|split; [|split]]].
  - unfold Jvm.findConstructor, bind. fold clazz.
    destruct (Jvm.findMethod _ _ _ _ _ w); reflexivity.
  - apply (respects_bind (constructor_lookup finder)).
    + apply respects_findMethod.
      * intros options v. left. exact I.
      * intros c Hc. left. destruct c; try contradiction; exact I.
      * right. left. reflexivity.
      * intros cls. right. right. exists cls. now rewrite Es.
    + intros id. apply respects_ret.
  - intros c w' H. unfold Jvm.findConstructor in H.
    apply bind_Returned in H as (id & w1 & Hm & H). inversion H; subst. cbn.
    apply findMethod_Returned in Hm as (Hn & g & cls & wa & wb & wc & Hf & Hc).
    fold clazz in Hf. rewrite Es in Hc.
    split; [reflexivity | split; [exact Hn|]].
    exists g, cls, wa, wb, wc. auto.
  - intros j Hr t0 cls id Hcls Hid.
    destruct (findMethod_ready clazz "<init>" ClassOps.VOID (cf_parameters finder)
                false w j Hr) as (w' & Hm & T).
    + exact Hcls.
    + cbv zeta. rewrite Es. exact Hid.
    + cbv zeta in Hm, T. rewrite Es in Hm, T. exists w'. split; [|exact T].
      unfold Jvm.findConstructor. fold clazz.
      rewrite (bind_step _ _ _ _ _ Hm). reflexivity.
  - intros c ps.
    destruct (ctor_parameter_chain (Finder.constructor c) ps) as [-> ->].
    split; reflexivity.
Qed.

(** * The statements at sample inputs *)

(** A pending exception in translate mode. *)
Lemma check_translates_or_aborts_witness :
  exists w',
    Jvm.check sample_jvm env_thread pending_world = Thrown (mkThrowable 77) w' /\
    trace w' = [ExceptionCheck; ExceptionOccurred; ExceptionClear] /\
    pending w' = None.
Proof.
  exact (proj1 (check_translates_or_aborts sample_jvm pending_world 77 eq_refl) eq_refl).
Defined.

(** An instance method that raises. *)
Lemma exception_check_funnel_witness :
  exists w',
    @enter sample_platform sample_jvm (ep_invokeV (KValue TInt) 5 64 []) live_world
    = Thrown (mkThrowable 77) w' /\
    pending w' = None.
Proof.
  refine (proj1 (proj2
    (proj1 (proj2 (@exception_check_funnel sample_platform sample_jvm
                     (ep_invokeV (KValue TInt) 5 64 []) live_world))
       (mkEnv env_thread false) _ NULL _ 5 _ 77 _ _ _ _)) eq_refl).
  - vm_compute. reflexivity.
  - vm_compute. reflexivity.
  - vm_compute. reflexivity.
  - vm_compute. reflexivity.
Defined.

(** Two creations in a fresh process. *)
Lemma create_at_most_once_witness :
  Forall refused
    [(call_create ["-Xmx1g"] 65540 false,
      create_returned (TryError "Java Virtual Machine already created"))].
Proof.
  apply (proj1 (proj2 (@create_at_most_once sample_platform
                         [call_create [] 65542 true; call_create ["-Xmx1g"] 65540 false]
                         fresh_world))
           []
           (call_create [] 65542 true, create_returned (TrySome sample_jvm))).
  - vm_compute. reflexivity.
  - reflexivity.
Defined.

(** A guard acquired on an attached thread. *)
Lemma attachment_idempotence_witness :
  evolves (fun c => ~ attach_call c) live_world
          (final (@Jvm.Env.ctor sample_platform false live_world)) /\
  (forall g w1, @Jvm.Env.ctor sample_platform false live_world = Returned g w1 ->
                detach g = false /\ @Jvm.Env.dtor sample_platform g w1 = Returned tt w1) /\
  (alive live_world ->
   exists g w1, @Jvm.Env.ctor sample_platform false live_world = Returned g w1).
Proof.
  apply (proj1 (@attachment_idempotence sample_platform) false live_world).
  reflexivity.
Defined.

(** Creation when the virtual machine reports [JNI_ENOMEM]. *)
Lemma create_checks_JNI_ERR_only_witness :
  exists w',
    Jvm.create [] 65542 false exhausted_world
    = Returned (TrySome (mkJvm NULL 65542 false)) w' /\
    instance w' = Some (mkJvm NULL 65542 false).
Proof.
  apply (proj2 (create_checks_JNI_ERR_only [] 65542 false exhausted_world eq_refl)).
  right. right. left. reflexivity.
Defined.

(** Deleting a null reference on a detached thread. *)
Lemma deleteGlobalRef_null_witness :
  exists w', @Jvm.deleteGlobalRef sample_platform NULL detached_world = Returned tt w'.
Proof.
  apply (proj2 (proj2 (proj2 (@deleteGlobalRef_null sample_platform detached_world)))).
  exists sample_jvm. split; [reflexivity | discriminate].
Defined.

(** The constructor of [java/lang/Integer] that takes an [int]. *)
Lemma findConstructor_lookup_witness :
  exists w',
    @Jvm.findConstructor sample_platform
      (Finder.ctor_parameter (Finder.constructor (ClassOps.named "java/lang/Integer"))
         ClassOps.INT) live_world
    = Returned (mkConstructor (ClassOps.named "java/lang/Integer") 64) w' /\
    trace w' = [GetEnv 65542; GetEnv 65542; FindClass "java/lang/Integer";
                GetMethodID 512 "<init>" "(I)V"].
Proof.
  apply (proj1 (proj2 (proj2 (proj2
    (@findConstructor_lookup sample_platform
       (Finder.ctor_parameter (Finder.constructor (ClassOps.named "java/lang/Integer"))
          ClassOps.INT) live_world)))) sample_jvm).
  - repeat split; discriminate.
  - discriminate.
  - discriminate.
Defined.

(** The static field [out] is declared with the type [java/io/PrintStream],
    which is not the class looked up: the lookup passes the signature of
    [java/lang/System], the virtual machine raises, and the check throws. *)
Example findStaticField_other_type :
  exists w',
    @Jvm.findStaticField sample_platform sample_jvm
      (ClassOps.named "java/lang/System") "out" live_world
    = Thrown (mkThrowable 88) w' /\
    trace w' = [GetEnv 65542; GetEnv 65542; FindClass "java/lang/System";
                GetStaticFieldID 512 "out" "Ljava/lang/System;";
                ExceptionCheck; ExceptionOccurred; ExceptionClear].
Proof. eexists. split; vm_compute; reflexivity. Qed.

(** A translated exception is thrown after the guard that attached the
    thread has detached it. *)
Example invoke_detaches_on_throw :
  exists w',
    @enter sample_platform sample_jvm (ep_invokeV KVoid 5 64 [1; 2]) detached_world
    = Thrown (mkThrowable 77) w' /\
    trace w' = [GetEnv 65542; AttachCurrentThreadAsDaemon; CallMethodV KVoid 5 64 [1; 2];
                ExceptionCheck; ExceptionOccurred; ExceptionClear;
                DetachCurrentThread] /\
    attached w' = false.
Proof. eexists. repeat split; vm_compute; reflexivity. Qed.

(** Deleting a reference that is not null issues the native call. *)
Example deleteGlobalRef_not_null :
  exists w',
    @Jvm.deleteGlobalRef sample_platform 9 live_world = Returned tt w' /\
    trace w' = [GetEnv 65542; DeleteGlobalRef 9].
Proof. eexists. split; vm_compute; reflexivity. Qed.

(** * The rest of the bridge *)

(** ** Descriptors and builders *)

Lemma arrayOf_n_fields n c :
  name (arrayOf_n n c) = markers n ++ name c /\ native (arrayOf_n n c) = native c.
Proof.
  induction n as [|n [IHn IHb]]; [split; reflexivity|].
  change (arrayOf_n (S n) c) with (ClassOps.arrayOf (arrayOf_n n c)).
  change (markers (S n)) with ("[" ++ markers n).
  unfold ClassOps.arrayOf. cbn [name native]. rewrite IHn, IHb.
  split; reflexivity.
Qed.

(** X1.  [arrayOf] keeps the primitive flag and puts one marker in front of
    the name.  After [n] applications the signature fragment of a primitive
    descriptor is [n] markers followed by its code; for a descriptor that is
    not primitive the markers are part of the name that [signature] wraps
    in [L] and [;]. *)
Theorem arrayOf_n_signature (n : nat) (c : Class) :
  native (arrayOf_n n c) = native c /\
  name (arrayOf_n n c) = markers n ++ name c /\
  (native c = true -> ClassOps.signature (arrayOf_n n c) = markers n ++ name c) /\
  (native c = false ->
   ClassOps.signature (arrayOf_n n c) = "L" ++ markers n ++ name c ++ ";").
Proof.
  destruct (arrayOf_n_fields n c) as [Hn Hb].
  split; [exact Hb | split; [exact Hn|]].
  unfold ClassOps.signature. rewrite Hb, Hn.
  split; intros ->; [reflexivity | now rewrite append_assoc].
Qed.

Lemma arrayOf_n_signature_witness :
  ClassOps.signature (arrayOf_n 3 ClassOps.DOUBLE) = "[[[D" /\
  ClassOps.signature (arrayOf_n 1 (ClassOps.named "java/lang/Object"))
  = "L[java/lang/Object;".
Proof.
  split.
  - exact (proj1 (proj2 (proj2 (arrayOf_n_signature 3 ClassOps.DOUBLE))) eq_refl).
  - exact (proj2 (proj2 (proj2
      (arrayOf_n_signature 1 (ClassOps.named "java/lang/Object")))) eq_refl).
Defined.

Lemma nth_error_update_eq {A} (a : nat) (x : A) (s : list A) (y : A) :
  nth_error s a = Some y -> nth_error (update a x s) a = Some x.
Proof.
  revert a; induction s as [|z s IH]; intros [|a] H; cbn in *;
    try discriminate; [reflexivity | now apply IH].
Qed.

Lemma nth_error_update_neq {A} (a b : nat) (x : A) (s : list A) :
  b <> a -> nth_error (update a x s) b = nth_error s b.
Proof.
  revert a b; induction s as [|z s IH]; intros [|a] [|b] H; cbn;
    try reflexivity; try congruence.
  apply IH. congruence.
Qed.

Lemma parameter_in_place (s : FinderStore.Store) (a : FinderStore.ref)
    (f : MethodFinder) (type : Class) :
  nth_error s a = Some f ->
  FinderStore.parameter a type s
  = Some (a, update a (Finder.parameter f type) s) /\
  nth_error (update a (Finder.parameter f type) s) a
  = Some (mkMethodFinder (mf_clazz f) (mf_name f) (mf_parameters f ++ [type])).
Proof.
  intros H. unfold FinderStore.parameter. rewrite H. split; [reflexivity|].
  now rewrite (nth_error_update_eq a _ s f H).
Qed.

Lemma parameters_in_place (ps : list Class) (s : FinderStore.Store)
    (a : FinderStore.ref) (f : MethodFinder) :
  nth_error s a = Some f ->
  exists s',
    FinderStore.parameters a ps s = Some (a, s') /\
    nth_error s' a
    = Some (mkMethodFinder (mf_clazz f) (mf_name f) (mf_parameters f ++ ps)) /\
    forall b, b <> a -> nth_error s' b = nth_error s b.
Proof.
  revert s f; induction ps as [|p ps IH]; intros s f H; cbn [FinderStore.parameters].
  - exists s. rewrite app_nil_r. destruct f. auto.
  - destruct (parameter_in_place s a f p H) as [-> H1].
    destruct (IH _ _ H1) as (s' & E & H2 & H3). exists s'.
    split; [exact E | split].
    + rewrite H2. cbn. now rewrite <- app_assoc.
    + intros b Hb. rewrite (H3 b Hb). now apply nth_error_update_neq.
Qed.

Lemma method_fresh (c : Class) (n : string) (s : FinderStore.Store) :
  nth_error (snd (FinderStore.method c n s)) (fst (FinderStore.method c n s))
  = Some (Finder.method c n) /\
  forall b, b <> fst (FinderStore.method c n s) ->
            nth_error (snd (FinderStore.method c n s)) b = nth_error s b.
Proof.
  cbn. split.
  - rewrite nth_error_app2 by lia. now rewrite Nat.sub_diag.
  - intros b Hb. destruct (Nat.lt_ge_cases b (List.length s)) as [Hlt|Hge].
    + now apply nth_error_app1.
    + rewrite (proj2 (nth_error_None s b) Hge).
      apply nth_error_None. rewrite length_app. cbn. lia.
Qed.

(** X2.  A method finder is one object that [parameter] changes in place:
    the call returns a reference to the receiver itself, appends the type
    to the parameters of that object and leaves every other finder alone,
    and [returns] reads the object as it is at that moment.  So for a new
    finder, after the chain of [parameter] calls, [returns] gives the
    owning type, the name, the parameters in the order of the calls and
    the return type; after one more [parameter] on the same object every
    [returns] on it, with the old or with another return type, has the new
    parameter at the end. *)
Theorem MethodFinder_round_trip (c : Class) (n : string) (ps : list Class)
    (r r' p : Class) (s : FinderStore.Store) :
  (forall (a : FinderStore.ref) (f : MethodFinder) (type : Class),
     nth_error s a = Some f ->
     exists s',
       FinderStore.parameter a type s = Some (a, s') /\
       FinderStore.returns a r s'
       = Some (mkMethodSignature (mf_clazz f) (mf_name f) r (mf_parameters f ++ [type])) /\
       forall b, b <> a -> nth_error s' b = nth_error s b) /\
  let a := fst (FinderStore.method c n s) in
  let s0 := snd (FinderStore.method c n s) in
  exists s1 s2,
    FinderStore.parameters a ps s0 = Some (a, s1) /\
    FinderStore.returns a r s1 = Some (mkMethodSignature c n r ps) /\
    FinderStore.parameter a p s1 = Some (a, s2) /\
    FinderStore.returns a r s2 = Some (mkMethodSignature c n r (ps ++ [p])) /\
    FinderStore.returns a r' s2 = Some (mkMethodSignature c n r' (ps ++ [p])) /\
    forall b, b <> a -> nth_error s2 b = nth_error s b.
Proof.
  split.
  - intros a f type H. destruct (parameter_in_place s a f type H) as [E H1].
    eexists. split; [exact E | split].
    + unfold FinderStore.returns. rewrite H1. reflexivity.
    + intros b Hb. now apply nth_error_update_neq.
  - intros a s0. destruct (method_fresh c n s) as [H0 Hs0]. fold a s0 in H0, Hs0.
    destruct (parameters_in_place ps s0 a _ H0) as (s1 & E1 & H1 & Hs1).
    cbn [Finder.method mf_clazz mf_name mf_parameters app] in H1.
    destruct (parameter_in_place s1 a _ p H1) as [E2 H2].
    cbn [mf_clazz mf_name mf_parameters] in H2.
    exists s1, (update a (Finder.parameter (mkMethodFinder c n ps) p) s1).
    split; [exact E1 | split; [|split; [exact E2 | split; [|split]]]].
    + unfold FinderStore.returns. rewrite H1. reflexivity.
    + unfold FinderStore.returns. rewrite H2. reflexivity.
    + unfold FinderStore.returns. rewrite H2. reflexivity.
    + intros b Hb. rewrite nth_error_update_neq by exact Hb.
      rewrite (Hs1 b Hb). now apply Hs0.
Qed.

(** Two finders in one store: a parameter given to the second is seen by a
    later [returns] on the second and not by one on the first. *)
Lemma MethodFinder_round_trip_witness :
  exists s',
    FinderStore.parameter 1%nat ClassOps.INT
      [Finder.method ClassOps.STRING "length"; Finder.method ClassOps.STRING "charAt"]
    = Some (1%nat, s') /\
    FinderStore.returns 1%nat ClassOps.CHAR s'
    = Some (mkMethodSignature ClassOps.STRING "charAt" ClassOps.CHAR [ClassOps.INT]) /\
    forall b, b <> 1%nat ->
      nth_error s' b
      = nth_error [Finder.method ClassOps.STRING "length";
                   Finder.method ClassOps.STRING "charAt"] b.
Proof.
  exact (proj1 (MethodFinder_round_trip ClassOps.STRING "charAt" [] ClassOps.CHAR
                  ClassOps.CHAR ClassOps.INT
                  [Finder.method ClassOps.STRING "length";
                   Finder.method ClassOps.STRING "charAt"])
           1%nat (Finder.method ClassOps.STRING "charAt") ClassOps.INT eq_refl).
Defined.

(** ** The exception check and the accessors *)

(** X3.  The exception check returns exactly when no exception is pending,
    and then it has issued the query and nothing else. *)
Theorem check_returns_iff (self : Jvm) (w : World) :
  (pending w = None ->
   exists w', Jvm.check self env_thread w = Returned tt w' /\
              trace w' = (trace w ++ [ExceptionCheck])%list /\ pending w' = None) /\
  (forall e w', Jvm.check self e w = Returned tt w' ->
                pending w = None /\ trace w' = (trace w ++ [ExceptionCheck])%list).
Proof.
  split.
  - intros Hp. rewrite (check_no_pending self w Hp). eexists.
    split; [reflexivity | split; [reflexivity | exact Hp]].
  - intros e w' H. apply check_Returned in H as (_ & Hp & ->).
    split; [exact Hp | reflexivity].
Qed.

Lemma check_returns_iff_witness :
  exists w', Jvm.check sample_jvm env_thread live_world = Returned tt w' /\
             trace w' = [ExceptionCheck] /\ pending w' = None.
Proof. exact (proj1 (check_returns_iff sample_jvm live_world) eq_refl). Defined.

Lemma get_fresh {P : Platform} w :
  instance w = None ->
  let c := JNI_CreateJavaVM default_options default_version in
  let r := vm_reply w (trace w) c in
  let w1 := log c (effect c r w) in
  let j := mkJvm (rhandle r) default_version default_exceptions in
  Jvm.get w = if rvalue r =? JNI_ERR then Fatal w1
              else Returned j (add_atexit deleter (set_instance (Some j) w1)).
Proof.
  intros Hi. cbv zeta. unfold Jvm.get, bind, read. rewrite Hi.
  rewrite (create_fresh _ _ _ _ Hi). cbv zeta. unfold answer.
  destruct (_ =? JNI_ERR); unfold ret; cbn [instance set_instance add_atexit].
  - destruct (effect_frame (JNI_CreateJavaVM default_options default_version)
                (vm_reply w (trace w) (JNI_CreateJavaVM default_options default_version)) w)
      as (_ & _ & Ei & _).
    cbn [log instance]. rewrite Ei, Hi. reflexivity.
  - reflexivity.
Qed.

(** X4.  [get] returns the instance that exists without any native call.
    With no instance it creates the virtual machine with the default
    arguments: when the creation reports [JNI_ERR] the process terminates
    and no instance is left; otherwise the new instance, which holds the
    default version and exception mode, is stored and returned. *)
Theorem get_lazily_creates {P : Platform} (w : World) :
  (forall j, instance w = Some j -> Jvm.get w = Returned j w) /\
  (instance w = None ->
   let c := JNI_CreateJavaVM default_options default_version in
   let r := vm_reply w (trace w) c in
   let j := mkJvm (rhandle r) default_version default_exceptions in
   (rvalue r = JNI_ERR ->
    exists w', Jvm.get w = Fatal w' /\
               trace w' = (trace w ++ [c])%list /\ instance w' = None) /\
   (rvalue r <> JNI_ERR ->
    exists w', Jvm.get w = Returned j w' /\
               trace w' = (trace w ++ [c])%list /\ instance w' = Some j /\
               atexit w' = (atexit w ++ [deleter])%list)).
Proof.
  split; [intros j; apply get_instance|].
  intros Hi c r j. rewrite (get_fresh w Hi). fold c r j.
  destruct (effect_frame c r w) as (_ & _ & Ei & Ea & _).
  split.
  - intros ->. cbn. eexists. split; [reflexivity|].
    split; [apply native_trace | cbn; congruence].
  - intros Hn. apply Z.eqb_neq in Hn. rewrite Hn. eexists. split; [reflexivity|].
    split; [apply native_trace | split; [reflexivity | cbn; now rewrite Ea]].
Qed.

Lemma get_lazily_creates_witness :
  exists w', @Jvm.get sample_platform fresh_world
             = Returned (mkJvm 4096 65542 false) w' /\
             trace w' = [JNI_CreateJavaVM [] 65542] /\
             instance w' = Some (mkJvm 4096 65542 false) /\
             atexit w' = [deleter].
Proof.
  apply (proj2 (proj2 (@get_lazily_creates sample_platform fresh_world) eq_refl)).
  discriminate.
Defined.

(** X5.  [created] issues no native call and changes nothing.  Right after
    a call of [create] it answers true exactly when that call succeeded or
    an instance existed before. *)
Theorem created_after_create (options : list string) (v : Z) (exc : bool) (w : World) :
  Jvm.created w
  = Returned (match instance w with Some _ => true | None => false end) w /\
  exists t w1,
    Jvm.create options v exc w = Returned t w1 /\
    Jvm.created w1
    = Returned (match t, instance w with
                | TrySome _, _ => true
                | TryError _, Some _ => true
                | TryError _, None => false
                end) w1.
Proof.
  split; [reflexivity|].
  destruct (instance w) as [j|] eqn:Hi.
  - rewrite (create_existing _ _ _ _ j Hi). do 2 eexists. split; [reflexivity|].
    unfold Jvm.created, bind, read, ret. now rewrite Hi.
  - rewrite (create_fresh _ _ _ _ Hi). cbv zeta.
    destruct (_ =? JNI_ERR); do 2 eexists; (split; [reflexivity|]).
    + unfold Jvm.created, bind, read, ret.
      destruct (effect_frame (JNI_CreateJavaVM options v)
                  (answer (JNI_CreateJavaVM options v) w) w) as (_ & _ & Ei & _).
      cbn. now rewrite Ei, Hi.
    + reflexivity.
Qed.

(** ** Invariants that every function of the bridge keeps *)

Section Keeping.

Context {P : Platform}.
Variable Inv : World -> Prop.
Variable Rel : World -> World -> Prop.
Hypothesis Rel_refl : forall w, Rel w w.
Hypothesis Rel_trans : forall a b c, Rel a b -> Rel b c -> Rel a c.

Lemma keeps_ret {A} (a : A) : keeps Inv Rel (ret a).
Proof. intros w H. split; [exact H | apply Rel_refl]. Qed.

Lemma keeps_throw {A} t : keeps Inv Rel (@throw A t).
Proof. intros w H. split; [exact H | apply Rel_refl]. Qed.

Lemma keeps_LOG_FATAL {A} : keeps Inv Rel (@LOG_FATAL A).
Proof. intros w H. split; [exact H | apply Rel_refl]. Qed.

Lemma keeps_null_call {A} : keeps Inv Rel (@null_call A).
Proof. intros w H. split; [exact H | apply Rel_refl]. Qed.

Lemma keeps_read {A} (f : World -> A) : keeps Inv Rel (read f).
Proof. intros w H. split; [exact H | apply Rel_refl]. Qed.

Lemma keeps_CHECK_NOTNULL p : keeps Inv Rel (CHECK_NOTNULL p).
Proof.
  unfold CHECK_NOTNULL. destruct (p =? NULL);
    [apply keeps_LOG_FATAL | apply keeps_ret].
Qed.

Lemma keeps_bind {A B} (m : M A) (k : A -> M B) :
  keeps Inv Rel m -> (forall a, keeps Inv Rel (k a)) -> keeps Inv Rel (bind m k).
Proof.
  intros Hm Hk w Hw. unfold bind. destruct (Hm w Hw) as [I1 R1].
  destruct (m w) as [a w1|t w1|w1]; cbn in *; auto.
  destruct (Hk a w1 I1) as [I2 R2]. split; [exact I2 | eauto].
Qed.

Hypothesis step : forall c, ~ thread_call c -> keeps Inv Rel (native_call c).

Lemma keeps_call e c : ~ thread_call c -> keeps Inv Rel (JNIEnv.call e c).
Proof.
  intros Hc. destruct e; cbn.
  - apply keeps_null_call.
  - apply keeps_bind; [now apply step | intros; apply keeps_ret].
Qed.

Hypothesis create_ok : forall options v exc, keeps Inv Rel (Jvm.create options v exc).

Lemma keeps_get : keeps Inv Rel Jvm.get.
Proof.
  unfold Jvm.get.
  apply keeps_bind; [apply keeps_read | intros i].
  apply keeps_bind.
  - destruct i; [apply keeps_ret|].
    apply keeps_bind; [apply create_ok | intros; apply keeps_ret].
  - intros _. apply keeps_bind; [apply keeps_read | intros [j|]].
    + apply keeps_ret.
    + apply keeps_LOG_FATAL.
Qed.

Hypothesis ctor_ok : forall daemon, keeps Inv Rel (Jvm.Env.ctor daemon).
Hypothesis dtor_ok :
  forall daemon w g w1,
    Inv w -> Jvm.Env.ctor daemon w = Returned g w1 -> keeps Inv Rel (Jvm.Env.dtor g).

Lemma keeps_scoped {A} daemon (body : Env -> M A) :
  (forall g, keeps Inv Rel (body g)) -> keeps Inv Rel (Jvm.Env.scoped daemon body).
Proof.
  intros Hb w Hw. unfold Jvm.Env.scoped.
  destruct (ctor_ok daemon w Hw) as [I1 R1].
  pose proof (dtor_ok daemon w) as Hd.
  destruct (Jvm.Env.ctor daemon w) as [g w1|t w1|w1]; cbn in I1, R1; auto.
  specialize (Hd g w1 Hw eq_refl).
  destruct (Hb g w1 I1) as [I2 R2].
  destruct (body g w1) as [a w2|t w2|w2]; cbn in I2, R2.
  - destruct (Hd w2 I2) as [I3 R3].
    destruct (Jvm.Env.dtor g w2); cbn in *; split; eauto.
  - destruct (Hd w2 I2) as [I3 R3].
    destruct (Jvm.Env.dtor g w2); cbn in *; split; eauto.
  - cbn. split; eauto.
Qed.

Lemma keeps_findClass clazz : keeps Inv Rel (Jvm.findClass clazz).
Proof.
  apply keeps_scoped. intros g.
  apply keeps_bind; [apply keeps_call; intros H; exact H | apply keeps_CHECK_NOTNULL].
Qed.

Lemma keeps_findMethod_body clazz n (sig : string) (isStatic : bool) g :
  keeps Inv Rel
    (id <- (if isStatic
            then cls <- Jvm.findClass clazz ;;
                 JNIEnv.call (env g) (GetStaticMethodID cls n sig)
            else cls <- Jvm.findClass clazz ;;
                 JNIEnv.call (env g) (GetMethodID cls n sig)) ;;
     CHECK_NOTNULL id).
Proof.
  apply keeps_bind; [|apply keeps_CHECK_NOTNULL].
  destruct isStatic;
    (apply keeps_bind;
     [apply keeps_findClass | intros cls; apply keeps_call; intros H; exact H]).
Qed.

Lemma keeps_findMethod clazz n returnType argTypes (isStatic : bool) :
  keeps Inv Rel (Jvm.findMethod clazz n returnType argTypes isStatic).
Proof.
  apply keeps_scoped. intros g. apply keeps_findMethod_body.
Qed.

Lemma keeps_check self e : keeps Inv Rel (Jvm.check self e).
Proof.
  unfold Jvm.check.
  apply keeps_bind; [apply keeps_call; intros H; exact H | intros b].
  destruct (b =? JNI_TRUE); [|apply keeps_ret].
  destruct (negb (exceptions self)).
  - apply keeps_bind; [apply keeps_call; intros H; exact H | intros _].
    apply keeps_LOG_FATAL.
  - apply keeps_bind; [apply keeps_call; intros H; exact H | intros o].
    apply keeps_bind; [apply keeps_call; intros H; exact H | intros _].
    apply keeps_throw.
Qed.

Lemma underlying_not_thread ep cls : ~ thread_call (underlying ep cls).
Proof. destruct ep as [k ? ? ?|k ? ? ?| | | |]; intros H; exact H. Qed.

Lemma keeps_resolve ep : keeps Inv Rel (resolve ep).
Proof.
  unfold resolve. destruct (looked_up ep); [apply keeps_findClass | apply keeps_ret].
Qed.

Lemma keeps_enter_body self ep g :
  keeps Inv Rel
    (cls <- resolve ep ;;
     x <- JNIEnv.call (env g) (underlying ep cls) ;;
     Jvm.check self (env g) ;;
     ret (decoded ep x)).
Proof.
  apply keeps_bind; [apply keeps_resolve | intros cls].
  apply keeps_bind; [apply keeps_call, underlying_not_thread | intros x].
  apply keeps_bind; [apply keeps_check | intros _; apply keeps_ret].
Qed.

Lemma keeps_enter self ep : keeps Inv Rel (enter self ep).
Proof.
  intros w Hw. rewrite enter_factor. revert w Hw.
  apply keeps_scoped. apply keeps_enter_body.
Qed.

Lemma keeps_findStaticField_body self clazz n g :
  keeps Inv Rel
    (cls <- Jvm.findClass clazz ;;
     id <- JNIEnv.call (env g) (GetStaticFieldID cls n (ClassOps.signature clazz)) ;;
     Jvm.check self (env g) ;;
     ret (mkField clazz id)).
Proof.
  apply keeps_bind; [apply keeps_findClass | intros cls].
  apply keeps_bind; [apply keeps_call; intros H; exact H | intros id].
  apply keeps_bind; [apply keeps_check | intros _; apply keeps_ret].
Qed.

Lemma keeps_deleteGlobalRef_body o g :
  keeps Inv Rel
    (if negb (o =? NULL) then JNIEnv.call (env g) (DeleteGlobalRef o) ;; ret tt
     else ret tt).
Proof.
  destruct (negb (o =? NULL)); [|apply keeps_ret].
  apply keeps_bind; [apply keeps_call; intros H; exact H | intros; apply keeps_ret].
Qed.

Lemma keeps_member self m : keeps Inv Rel (member self m).
Proof.
  destruct m; cbn [member];
    unfold Jvm.string_, Jvm.findConstructor, Jvm.findMethod_signature,
      Jvm.findStaticMethod, Jvm.findStaticField, Jvm.newGlobalRef, Jvm.deleteGlobalRef.
  - apply keeps_bind; [|intros; apply keeps_ret].
    apply keeps_scoped. intros g. apply keeps_call. intros H; exact H.
  - apply keeps_bind; [|intros; apply keeps_ret].
    apply keeps_bind; [apply keeps_findMethod | intros; apply keeps_ret].
  - apply keeps_bind; [|intros; apply keeps_ret].
    apply keeps_bind; [apply keeps_findMethod | intros; apply keeps_ret].
  - apply keeps_bind; [|intros; apply keeps_ret].
    apply keeps_bind; [apply keeps_findMethod | intros; apply keeps_ret].
  - apply keeps_bind; [|intros; apply keeps_ret].
    apply keeps_scoped. apply keeps_findStaticField_body.
  - apply keeps_bind; [|intros; apply keeps_ret].
    apply keeps_scoped. intros g. apply keeps_call. intros H; exact H.
  - apply keeps_scoped. apply keeps_deleteGlobalRef_body.
  - apply keeps_bind; [apply keeps_enter | intros; apply keeps_ret].
Qed.

Lemma keeps_perform c : keeps Inv Rel (perform c).
Proof.
  destruct c; cbn [perform]; unfold Jvm.created.
  - apply keeps_bind; [apply create_ok | intros; apply keeps_ret].
  - apply keeps_bind; [|intros; apply keeps_ret].
    apply keeps_bind; [apply keeps_read | intros; apply keeps_ret].
  - apply keeps_bind; [apply keeps_get | intros; apply keeps_ret].
  - apply keeps_bind; [apply keeps_get | intros self].
    apply keeps_bind; [apply keeps_member | intros; apply keeps_ret].
Qed.

Lemma keeps_run calls w :
  Inv w -> Inv (snd (run calls w)) /\ Rel w (snd (run calls w)).
Proof.
  revert w; induction calls as [|c rest IH]; intros w Hw; cbn [run].
  - split; [exact Hw | apply Rel_refl].
  - destruct (keeps_perform c w Hw) as [I1 R1].
    destruct (perform c w) as [o w1|t w1|w1]; cbn in I1, R1.
    + destruct (IH w1 I1) as [I2 R2]. destruct (run rest w1) as [l wf].
      cbn in *. split; eauto.
    + destruct (IH w1 I1) as [I2 R2]. destruct (run rest w1) as [l wf].
      cbn in *. split; eauto.
    + cbn. split; assumption.
Qed.

End Keeping.

(** ** The instance and its exit handler *)

Lemma registered_refl w : registered w w.
Proof. left. split; reflexivity. Qed.

Lemma registered_trans a b c : registered a b -> registered b c -> registered a c.
Proof.
  intros [[I1 A1]|(N1 & j1 & I1 & A1)] [[I2 A2]|(N2 & j2 & I2 & A2)].
  - left. split; congruence.
  - right. split; [congruence|]. exists j2. split; congruence.
  - right. split; [exact N1|]. exists j1. split; congruence.
  - congruence.
Qed.

Lemma registered_step c : keeps (fun _ => True) registered (native_call c).
Proof.
  intros w _. split; [exact I|]. cbn.
  destruct (effect_frame c (answer c w) w) as (_ & _ & Ei & Ea & _).
  left. split; assumption.
Qed.

Lemma registered_create options v exc :
  keeps (fun _ => True) registered (Jvm.create options v exc).
Proof.
  intros w _. split; [exact I|].
  destruct (instance w) as [j|] eqn:Hi.
  - rewrite (create_existing _ _ _ _ j Hi). apply registered_refl.
  - rewrite (create_fresh _ _ _ _ Hi). cbv zeta.
    destruct (effect_frame (JNI_CreateJavaVM options v)
                (answer (JNI_CreateJavaVM options v) w) w) as (_ & _ & Ei & Ea & _).
    destruct (_ =? JNI_ERR); cbn.
    + left. split; assumption.
    + right. split; [exact Hi|]. eexists. split; [reflexivity|].
      cbn [atexit add_atexit set_instance log]. now rewrite Ea.
Qed.

Lemma registered_JavaVM vm v :
  keeps (fun _ => True) registered (JavaVM.GetEnv vm v) /\
  keeps (fun _ => True) registered (JavaVM.AttachCurrentThread vm) /\
  keeps (fun _ => True) registered (JavaVM.AttachCurrentThreadAsDaemon vm) /\
  keeps (fun _ => True) registered (JavaVM.DetachCurrentThread vm).
Proof.
  unfold JavaVM.GetEnv, JavaVM.AttachCurrentThread,
    JavaVM.AttachCurrentThreadAsDaemon, JavaVM.DetachCurrentThread.
  destruct (vm =? NULL); (split; [|split; [|split]]);
    try (apply keeps_null_call; apply registered_refl);
    (apply keeps_bind;
     [apply registered_trans | apply registered_step
     | intros; apply keeps_ret; apply registered_refl]).
Qed.

Lemma registered_get {P : Platform} : keeps (fun _ => True) registered Jvm.get.
Proof.
  apply keeps_get;
    [apply registered_refl | apply registered_trans | apply registered_create].
Qed.

Lemma registered_ctor {P : Platform} daemon :
  keeps (fun _ => True) registered (Jvm.Env.ctor daemon).
Proof.
  pose proof registered_refl as Hr. pose proof registered_trans as Ht.
  unfold Jvm.Env.ctor.
  apply keeps_bind; auto; [apply registered_get | intros j].
  apply keeps_bind; auto; [apply registered_get | intros j'].
  apply keeps_bind; auto; [apply registered_JavaVM | intros [e result]].
  destruct (result =? JNI_EDETACHED); [|apply keeps_ret; auto].
  apply keeps_bind; auto; [|intros; apply keeps_ret; auto].
  destruct daemon; apply (registered_JavaVM (jvm j) 0).
Qed.

Lemma registered_dtor {P : Platform} g :
  keeps (fun _ => True) registered (Jvm.Env.dtor g).
Proof.
  pose proof registered_refl as Hr. pose proof registered_trans as Ht.
  unfold Jvm.Env.dtor. destruct (detach g); [|apply keeps_ret; auto].
  apply keeps_bind; auto; [apply registered_get | intros j].
  apply (registered_JavaVM (jvm j) 0).
Qed.

Lemma registered_run {P : Platform} calls w : registered w (snd (run calls w)).
Proof.
  apply (keeps_run (fun _ => True) registered registered_refl registered_trans).
  - intros c _. apply registered_step.
  - apply registered_create.
  - apply registered_ctor.
  - intros daemon w0 g w1 _ _. apply registered_dtor.
  - exact I.
Qed.

(** X6.  Whatever a client calls, an instance that exists is never
    replaced or dropped: it stays the instance, [get] keeps returning it
    without a native call, and no further exit handler is registered.  In a
    process that starts with no instance and no handler, at every moment
    there is either no instance and no handler, or one instance and the one
    [deleter] registered when it was created. *)
Theorem singleton_is_stable {P : Platform} (calls : list Call) (w : World) :
  let wf := snd (run calls w) in
  (forall j, instance w = Some j ->
             instance wf = Some j /\ atexit wf = atexit w /\
             Jvm.get wf = Returned j wf) /\
  (instance w = None -> atexit w = [] ->
   (instance wf = None /\ atexit wf = []) \/
   (exists j, instance wf = Some j /\ atexit wf = [deleter])).
Proof.
  intros wf. pose proof (registered_run calls w) as R. fold wf in R. split.
  - intros j Hj. destruct R as [[Hi Ha]|(Hn & _)]; [|congruence].
    rewrite Hj in Hi. split; [exact Hi | split; [exact Ha|]].
    now apply get_instance.
  - intros Hi Ha. destruct R as [[Hi' Ha']|(_ & j & Hj & Ha')].
    + left. split; congruence.
    + right. exists j. split; [exact Hj | now rewrite Ha', Ha].
Qed.

Lemma singleton_is_stable_witness :
  let wf := snd (@run sample_platform
                   [call_member (m_findStaticField (ClassOps.named "java/lang/System") "out");
                    call_create [] 65540 false; call_get]
                   live_world) in
  instance wf = Some sample_jvm /\ atexit wf = [deleter] /\
  @Jvm.get sample_platform wf = Returned sample_jvm wf.
Proof.
  exact (proj1 (@singleton_is_stable sample_platform
                  [call_member (m_findStaticField (ClassOps.named "java/lang/System") "out");
                   call_create [] 65540 false; call_get]
                  live_world) sample_jvm eq_refl).
Defined.

(** ** Operations on an attached thread *)

Lemma attached_step c :
  ~ thread_call c -> keeps is_attached unchanged_attachment (native_call c).
Proof.
  intros Hc w Hw. unfold is_attached in *. split.
  - cbn. unfold effect.
    destruct c; cbn; try exact Hw; try (exfalso; apply Hc; exact I);
      repeat match goal with
             | |- context [if ?b then _ else _] => destruct b
             | |- context [match ?o with Some _ => _ | None => _ end] => destruct o
             end; cbn; auto.
  - apply evolves_step. intros [H|H].
    + apply Hc. destruct c; try contradiction; exact I.
    + apply Hc. subst c. exact I.
Qed.

Lemma unchanged_refl w : unchanged_attachment w w.
Proof. apply evolves_refl. Qed.

Lemma unchanged_trans a b c :
  unchanged_attachment a b -> unchanged_attachment b c -> unchanged_attachment a c.
Proof. apply evolves_trans. Qed.

Lemma attached_create options v exc :
  keeps is_attached unchanged_attachment (Jvm.create options v exc).
Proof.
  intros w Hw. split.
  - unfold is_attached in *. destruct (instance w) as [j|] eqn:Hi.
    + now rewrite (create_existing _ _ _ _ j Hi).
    + rewrite (create_fresh _ _ _ _ Hi). cbv zeta.
      destruct (attached_step (JNI_CreateJavaVM options v) (fun H => H) w Hw)
        as [Ha _].
      unfold is_attached in Ha. cbn in Ha.
      destruct (_ =? JNI_ERR); cbn; exact Ha.
  - apply respects_create. intros o x [H|H]; [exact H | discriminate].
Qed.

Lemma attached_ctor {P : Platform} daemon :
  keeps is_attached unchanged_attachment (Jvm.Env.ctor daemon) /\
  forall w g w1, is_attached w -> Jvm.Env.ctor daemon w = Returned g w1 ->
                 detach g = false.
Proof.
  pose proof unchanged_refl as Hr. pose proof unchanged_trans as Ht.
  split.
  - unfold Jvm.Env.ctor.
    apply keeps_bind; auto; [apply keeps_get; auto; apply attached_create | intros j].
    apply keeps_bind; auto; [apply keeps_get; auto; apply attached_create | intros j'].
    intros w Hw. unfold bind.
    destruct (Z.eq_dec (jvm j) NULL) as [En|En].
    + unfold JavaVM.GetEnv. rewrite En. cbn. split; [exact Hw | apply Hr].
    + destruct (GetEnv_attached (jvm j) (version j') w Hw En)
        as (e & result & -> & Hres & _).
      apply Z.eqb_neq in Hres. rewrite Hres. cbn. split; [exact Hw|].
      apply (evolves_step _ (GetEnv (version j')) (answer (GetEnv (version j')) w)).
      intros [H|H]; [exact H | discriminate].
  - intros w g w1 Hw H. destruct (ctor_attached daemon w Hw) as [_ K].
    exact (proj1 (K g w1 H)).
Qed.

Lemma attached_run {P : Platform} calls w :
  is_attached w ->
  is_attached (snd (run calls w)) /\ unchanged_attachment w (snd (run calls w)).
Proof.
  apply (keeps_run is_attached unchanged_attachment unchanged_refl unchanged_trans).
  - apply attached_step.
  - apply attached_create.
  - intros daemon. apply attached_ctor.
  - intros daemon w0 g w1 Hw H.
    pose proof (proj2 (attached_ctor daemon) w0 g w1 Hw H) as Hd.
    unfold Jvm.Env.dtor. rewrite Hd. apply keeps_ret. apply unchanged_refl.
Qed.

(** X7.  On a thread that is attached, no sequence of calls of the bridge
    attaches or detaches the thread: the thread is still attached at the
    end, and none of the native calls issued is [AttachCurrentThread],
    [AttachCurrentThreadAsDaemon] or [DetachCurrentThread]. *)
Theorem attached_thread_stays_attached {P : Platform} (calls : list Call) (w : World) :
  attached w = true ->
  attached (snd (run calls w)) = true /\
  exists l, trace (snd (run calls w)) = (trace w ++ l)%list /\
            Forall (fun c => ~ attachment_change c) l.
Proof.
  intros Hw. destruct (attached_run calls w Hw) as [Ha (_ & _ & _ & l & T & F & _)].
  split; [exact Ha|]. exists l. split; assumption.
Qed.

Lemma attached_thread_stays_attached_witness :
  let wf := snd (@run sample_platform
                   [call_member (m_enter (ep_invokeV KVoid 5 64 []));
                    call_member (m_deleteGlobalRef 0)]
                   live_world) in
  attached wf = true /\
  exists l, trace wf = (trace live_world ++ l)%list /\
            Forall (fun c => ~ attachment_change c) l.
Proof.
  exact (@attached_thread_stays_attached sample_platform
           [call_member (m_enter (ep_invokeV KVoid 5 64 []));
            call_member (m_deleteGlobalRef 0)]
           live_world eq_refl).
Defined.

(** ** Operations on a detached thread *)

Lemma ctor_alive_detached {P : Platform} (daemon : bool) w j :
  instance w = Some j -> jvm j <> NULL -> attached w = false ->
  let a := if daemon then AttachCurrentThreadAsDaemon else AttachCurrentThread in
  let w1 := log (GetEnv (version j)) w in
  let r := vm_reply w (trace w ++ [GetEnv (version j)])%list a in
  Jvm.Env.ctor daemon w
  = Returned (mkEnv (if rvalue r =? JNI_OK then env_thread else env_null) true)
             (log a (if rvalue r =? JNI_OK then set_attached true w1 else w1)).
Proof.
  intros Hi Hn Ha. cbv zeta. unfold Jvm.Env.ctor.
  rewrite (bind_step _ _ _ _ _ (get_instance w j Hi)).
  rewrite (bind_step _ _ _ _ _ (get_instance w j Hi)).
  unfold JavaVM.GetEnv, JavaVM.AttachCurrentThread, JavaVM.AttachCurrentThreadAsDaemon.
  destruct (Z.eqb_spec (jvm j) NULL) as [E|_]; [contradiction|].
  unfold bind, native_call, answer, effect, ret. rewrite Ha. cbn.
  destruct daemon; reflexivity.
Qed.

(** X8.  What acquiring the guard does when the runtime is alive.  On an
    attached thread it issues [GetEnv] only and the guard does not own the
    attachment; its environment is null when the version is not supported.
    On a detached thread it issues [GetEnv] and one attach call, the daemon
    variant exactly when [daemon] is set, and the guard owns the attachment
    whether the attach call succeeded or not; when it failed the
    environment of the guard is null and the thread is still detached. *)
Theorem Env_ctor_cases {P : Platform} (daemon : bool) (w : World) (j : Jvm) :
  instance w = Some j -> jvm j <> NULL ->
  let v := version j in
  let a := if daemon then AttachCurrentThreadAsDaemon else AttachCurrentThread in
  let r := vm_reply w (trace w ++ [GetEnv v])%list a in
  (attached w = true ->
   exists w1,
     Jvm.Env.ctor daemon w
     = Returned (mkEnv (if vm_supports w v then env_thread else env_null) false) w1 /\
     trace w1 = (trace w ++ [GetEnv v])%list /\ attached w1 = true) /\
  (attached w = false ->
   exists w2,
     Jvm.Env.ctor daemon w
     = Returned (mkEnv (if rvalue r =? JNI_OK then env_thread else env_null) true) w2 /\
     trace w2 = (trace w ++ [GetEnv v; a])%list /\
     attached w2 = (rvalue r =? JNI_OK)).
Proof.
  intros Hi Hn v a r. split; intros Ha.
  - rewrite (ctor_alive_attached daemon w j Hi Hn Ha). eexists.
    split; [reflexivity | split; [reflexivity | exact Ha]].
  - rewrite (ctor_alive_detached daemon w j Hi Hn Ha). cbv zeta. fold v a r.
    eexists. split; [reflexivity|]. split.
    + destruct (rvalue r =? JNI_OK); cbn; now rewrite <- app_assoc.
    + destruct (rvalue r =? JNI_OK); cbn; [reflexivity | exact Ha].
Qed.

Lemma Env_ctor_cases_witness :
  exists w2,
    @Jvm.Env.ctor sample_platform false detached_world
    = Returned (mkEnv env_thread true) w2 /\
    trace w2 = [GetEnv 65542; AttachCurrentThread] /\
    attached w2 = true.
Proof.
  exact (proj2 (@Env_ctor_cases sample_platform false detached_world sample_jvm
                  eq_refl ltac:(discriminate)) eq_refl).
Defined.

Lemma scoped_balanced {P : Platform} {A} (body : Env -> M A) :
  (forall g, keeps is_attached unchanged_attachment (body g)) ->
  balanced (Jvm.Env.scoped default_daemon body).
Proof.
  intros Hb w j Hi Hn Ha Hok. unfold Jvm.Env.scoped.
  rewrite (ctor_alive_detached default_daemon w j Hi Hn Ha). cbv zeta.
  fold (@default_attach P). rewrite Hok. cbn [Z.eqb JNI_OK].
  set (g := mkEnv env_thread true).
  set (w2 := log default_attach (set_attached true (log (GetEnv (version j)) w))).
  assert (T2 : trace w2 = (trace w ++ [GetEnv (version j); default_attach])%list)
    by (subst w2; cbn; now rewrite <- app_assoc).
  assert (I2 : instance w2 = Some j) by exact Hi.
  destruct (Hb g w2 eq_refl) as [Ab (_ & _ & Kb & l & Tb & Fb & _)].
  specialize (Kb j I2). exists l. split; [exact Fb|].
  destruct (body g w2) as [x wb|t wb|wb]; cbn [final] in Ab, Kb, Tb.
  - rewrite (dtor_owning g wb j eq_refl Kb Hn). cbn [final is_fatal].
    rewrite native_trace, Tb, T2, <- !app_assoc. reflexivity.
  - rewrite (dtor_owning g wb j eq_refl Kb Hn). cbn [final is_fatal].
    rewrite native_trace, Tb, T2, <- !app_assoc. reflexivity.
  - cbn [final is_fatal]. rewrite Tb, T2, app_nil_r, <- !app_assoc. reflexivity.
Qed.

Lemma balanced_map {P : Platform} {A B} (m : M A) (f : A -> B) :
  balanced m -> balanced (x <- m ;; ret (f x)).
Proof.
  intros Hm w j Hi Hn Ha Hok. destruct (Hm w j Hi Hn Ha Hok) as (l & F & T).
  exists l. split; [exact F|]. unfold bind.
  destruct (m w); cbn in *; exact T.
Qed.

Lemma attached_body {P : Platform} {A} (b : M A) :
  (forall Inv Rel,
     (forall w, Rel w w) ->
     (forall x y z, Rel x y -> Rel y z -> Rel x z) ->
     (forall c, ~ thread_call c -> keeps Inv Rel (native_call c)) ->
     (forall daemon, keeps Inv Rel (Jvm.Env.ctor daemon)) ->
     (forall daemon w g w1,
        Inv w -> Jvm.Env.ctor daemon w = Returned g w1 -> keeps Inv Rel (Jvm.Env.dtor g)) ->
     keeps Inv Rel b) ->
  keeps is_attached unchanged_attachment b.
Proof.
  intros H. apply H.
  - apply unchanged_refl.
  - apply unchanged_trans.
  - apply attached_step.
  - intros daemon. apply attached_ctor.
  - intros daemon w0 g w1 Hw Hc.
    pose proof (proj2 (attached_ctor daemon) w0 g w1 Hw Hc) as Hd.
    unfold Jvm.Env.dtor. rewrite Hd. apply keeps_ret. apply unchanged_refl.
Qed.

(** X9.  On a detached thread, with a runtime that is alive and accepts
    the attachment, every member function attaches the thread exactly once
    and detaches it exactly once, after everything else, whether it returns
    or throws; the guards nested inside issue no attach or detach call.  The
    detach call is missing only when the process has terminated. *)
Theorem member_attaches_once {P : Platform} (self : Jvm) (m : Member) :
  balanced (member self m).
Proof.
  destruct m; cbn [member];
    unfold Jvm.string_, Jvm.findConstructor, Jvm.findMethod_signature,
      Jvm.findStaticMethod, Jvm.findStaticField, Jvm.newGlobalRef, Jvm.deleteGlobalRef.
  - apply balanced_map, scoped_balanced. intros g. apply attached_body.
    intros Inv Rel Hr Ht Hs Hc Hd. apply keeps_call; auto; intros H; exact H.
  - apply balanced_map, balanced_map, scoped_balanced. intros g. apply attached_body.
    intros Inv Rel Hr Ht Hs Hc Hd. cbv zeta. apply keeps_findMethod_body with (isStatic := false); auto.
  - apply balanced_map, balanced_map, scoped_balanced. intros g. apply attached_body.
    intros Inv Rel Hr Ht Hs Hc Hd. cbv zeta. apply keeps_findMethod_body with (isStatic := false); auto.
  - apply balanced_map, balanced_map, scoped_balanced. intros g. apply attached_body.
    intros Inv Rel Hr Ht Hs Hc Hd. cbv zeta. apply keeps_findMethod_body with (isStatic := true); auto.
  - apply balanced_map, scoped_balanced. intros g. apply attached_body.
    intros Inv Rel Hr Ht Hs Hc Hd. eapply keeps_findStaticField_body; eauto.
  - apply balanced_map, scoped_balanced. intros g. apply attached_body.
    intros Inv Rel Hr Ht Hs Hc Hd. apply keeps_call; auto; intros H; exact H.
  - apply scoped_balanced. intros g. apply attached_body.
    intros Inv Rel Hr Ht Hs Hc Hd. eapply keeps_deleteGlobalRef_body; eauto.
  - apply balanced_map. intros w j Hi Hn Ha Hok. rewrite enter_factor.
    revert w j Hi Hn Ha Hok. apply scoped_balanced. intros g. apply attached_body.
    intros Inv Rel Hr Ht Hs Hc Hd. eapply keeps_enter_body; eauto.
Qed.

Lemma member_attaches_once_witness :
  exists l,
    Forall (fun c => ~ attachment_change c) l /\
    trace (final (@member sample_platform sample_jvm
                    (m_enter (ep_invokeStaticV (KValue TInt)
                                (ClassOps.named "java/lang/Math") 64 [7]))
                    detached_world))
    = ([] ++ GetEnv 65542 :: AttachCurrentThreadAsDaemon :: l ++ [DetachCurrentThread])%list.
Proof.
  exact (@member_attaches_once sample_platform sample_jvm
           (m_enter (ep_invokeStaticV (KValue TInt)
                       (ClassOps.named "java/lang/Math") 64 [7]))
           detached_world sample_jvm eq_refl ltac:(discriminate) eq_refl eq_refl).
Defined.

(** ** Where exceptions come from and where they stay *)

Lemma never_throws_call e c : never_throws (JNIEnv.call e c).
Proof. intros w t w'. destruct e; discriminate. Qed.

Lemma never_throws_CHECK_NOTNULL p : never_throws (CHECK_NOTNULL p).
Proof. intros w t w'. unfold CHECK_NOTNULL. destruct (p =? NULL); discriminate. Qed.

Lemma never_throws_findClass {P : Platform} clazz : never_throws (Jvm.findClass clazz).
Proof.
  apply never_throws_scoped. intros g.
  apply never_throws_bind; [apply never_throws_call | apply never_throws_CHECK_NOTNULL].
Qed.

Lemma never_throws_findMethod {P : Platform} clazz n returnType argTypes (isStatic : bool) :
  never_throws (Jvm.findMethod clazz n returnType argTypes isStatic).
Proof.
  apply never_throws_scoped. intros g. cbv zeta.
  apply never_throws_bind; [|apply never_throws_CHECK_NOTNULL].
  destruct isStatic;
    (apply never_throws_bind;
     [apply never_throws_findClass | intros; apply never_throws_call]).
Qed.

Lemma never_throws_map {A B} (m : M A) (f : A -> B) :
  never_throws m -> never_throws (x <- m ;; ret (f x)).
Proof.
  intros H. apply never_throws_bind; [exact H | intros; apply never_throws_ret].
Qed.

Lemma check_Thrown self e w t w' :
  Jvm.check self e w = Thrown t w' ->
  exceptions self = true /\ pending w = Some (object t) /\ pending w' = None.
Proof.
  destruct e; [discriminate|].
  unfold Jvm.check, JNIEnv.call, bind, native_call, answer, effect. cbn.
  destruct (pending w) as [x|] eqn:Hp; cbn; [|discriminate].
  destruct (exceptions self); cbn; [|discriminate].
  rewrite Hp. intros H. inversion H; subst. cbn. auto.
Qed.

Lemma never_throws_check_abort self e :
  exceptions self = false -> never_throws (Jvm.check self e).
Proof.
  intros Hx w t w' H. apply check_Thrown in H as (H & _). congruence.
Qed.

Lemma never_throws_resolve {P : Platform} ep : never_throws (resolve ep).
Proof.
  unfold resolve. destruct (looked_up ep);
    [apply never_throws_findClass | apply never_throws_ret].
Qed.

Lemma never_throws_unchecked {P : Platform} self m :
  checked m = false -> never_throws (member self m).
Proof.
  destruct m; cbn [checked member]; intros H; try discriminate;
    unfold Jvm.string_, Jvm.findConstructor, Jvm.findMethod_signature,
      Jvm.findStaticMethod, Jvm.newGlobalRef, Jvm.deleteGlobalRef.
  - apply never_throws_map, never_throws_scoped. intros g. apply never_throws_call.
  - apply never_throws_map, never_throws_map, never_throws_findMethod.
  - apply never_throws_map, never_throws_map, never_throws_findMethod.
  - apply never_throws_map, never_throws_map, never_throws_findMethod.
  - apply never_throws_map, never_throws_scoped. intros g. apply never_throws_call.
  - apply never_throws_scoped. intros g. destruct (negb (o =? NULL)).
    + apply never_throws_bind; [apply never_throws_call | intros; apply never_throws_ret].
    + apply never_throws_ret.
Qed.

Lemma never_throws_abort {P : Platform} self m :
  exceptions self = false -> never_throws (member self m).
Proof.
  intros Hx. destruct (checked m) eqn:Hc; [|now apply never_throws_unchecked].
  destruct m; try discriminate; cbn [member].
  - apply never_throws_map. unfold Jvm.findStaticField.
    apply never_throws_scoped. intros g.
    apply never_throws_bind; [apply never_throws_findClass | intros cls].
    apply never_throws_bind; [apply never_throws_call | intros id].
    apply never_throws_bind; [now apply never_throws_check_abort | intros _].
    apply never_throws_ret.
  - apply never_throws_map. intros w t w'. rewrite enter_factor. revert w t w'.
    apply never_throws_scoped. intros g.
    apply never_throws_bind; [apply never_throws_resolve | intros cls].
    apply never_throws_bind; [apply never_throws_call | intros id].
    apply never_throws_bind; [now apply never_throws_check_abort | intros _].
    apply never_throws_ret.
Qed.

Lemma settles_checked {A} self e (v : A) : settles (Jvm.check self e ;; ret v).
Proof.
  intros w. unfold bind.
  destruct (Jvm.check self e w) as [[] w1|t w1|w1] eqn:H; cbn; auto.
  - apply check_Returned in H as (_ & Hp & ->). exact Hp.
  - apply check_Thrown in H as (_ & _ & Hp). exact Hp.
Qed.

Lemma settles_bind {A B} (m : M A) (k : A -> M B) :
  never_throws m -> (forall a, settles (k a)) -> settles (bind m k).
Proof.
  intros Hm Hk w. unfold bind.
  destruct (m w) as [a w1|t w1|w1] eqn:E; [apply Hk | | exact I].
  exfalso. exact (Hm _ _ _ E).
Qed.

Lemma settles_map {A B} (m : M A) (f : A -> B) :
  settles m -> settles (x <- m ;; ret (f x)).
Proof.
  intros Hm w. specialize (Hm w). unfold bind. destruct (m w); cbn; auto.
Qed.

Lemma dtor_pending {P : Platform} g w :
  pending (final (Jvm.Env.dtor g w)) = pending w.
Proof.
  destruct (respects_dtor attachment_call (fun _ _ => I)
              (fun c H => match c return thread_call c -> attachment_call c with
                          | JNI_CreateJavaVM _ _ => fun K => I
                          | _ => fun K => K
                          end H) g w)
    as (_ & _ & _ & l & _ & F & Q).
  exact (Q F).
Qed.

Lemma settles_scoped {P : Platform} {A} daemon (body : Env -> M A) :
  (forall g, settles (body g)) -> settles (Jvm.Env.scoped daemon body).
Proof.
  intros Hb w. unfold Jvm.Env.scoped.
  destruct (Jvm.Env.ctor daemon w) as [g w1|t w1|w1] eqn:Ec; [| |exact I].
  - specialize (Hb g w1). pose proof (never_throws_dtor g) as Hd.
    destruct (body g w1) as [a w2|t w2|w2]; [| |exact I].
    + pose proof (dtor_pending g w2) as Hp.
      destruct (Jvm.Env.dtor g w2) as [u w3|t w3|w3] eqn:Ed; cbn in Hp;
        [congruence | exfalso; exact (Hd _ _ _ Ed) | exact I].
    + pose proof (dtor_pending g w2) as Hp.
      destruct (Jvm.Env.dtor g w2) as [u w3|t' w3|w3] eqn:Ed; cbn in Hp;
        [congruence | exact I | exact I].
  - exfalso. exact (never_throws_ctor _ _ _ _ Ec).
Qed.

Lemma settles_enter {P : Platform} self ep : settles (enter self ep).
Proof.
  intros w. rewrite enter_factor. revert w.
  apply settles_scoped. intros g.
  apply settles_bind; [apply never_throws_resolve | intros cls].
  apply settles_bind; [apply never_throws_call | intros x].
  apply settles_checked.
Qed.

Lemma settles_findStaticField {P : Platform} self clazz n :
  settles (Jvm.findStaticField self clazz n).
Proof.
  apply settles_scoped. intros g.
  apply settles_bind; [apply never_throws_findClass | intros cls].
  apply settles_bind; [apply never_throws_call | intros x].
  apply settles_checked.
Qed.

Lemma member_Thrown {P : Platform} self m w t w' :
  member self m w = Thrown t w' -> checked m = true /\ exceptions self = true.
Proof.
  intros H. split.
  - destruct (checked m) eqn:Hc; [reflexivity|].
    exfalso. exact (never_throws_unchecked self m Hc _ _ _ H).
  - destruct (exceptions self) eqn:Hx; [reflexivity|].
    exfalso. exact (never_throws_abort self m Hx _ _ _ H).
Qed.

(** X10.  A C++ exception leaves a member function only in translate mode
    and only from [findStaticField] or an invocation or field-read entry
    point; the lookups, [string], [newGlobalRef] and [deleteGlobalRef] never
    throw, and in abort mode nothing does.  Whenever [findStaticField] or
    an entry point returns or throws, no exception is pending in the
    virtual machine afterwards. *)
Theorem exceptions_leave_through_the_check {P : Platform} (self : Jvm) (m : Member)
    (w : World) :
  (forall t w', member self m w = Thrown t w' ->
                checked m = true /\ exceptions self = true /\ pending w' = None) /\
  (checked m = true ->
   match member self m w with
   | Returned _ w' | Thrown _ w' => pending w' = None
   | Fatal _ => True
   end).
Proof.
  assert (S : checked m = true -> settles (member self m)).
  { destruct m; try discriminate; intros _; cbn [member].
    - apply settles_map, settles_findStaticField.
    - apply settles_map, settles_enter. }
  split.
  - intros t w' H. destruct (member_Thrown self m w t w' H) as [Hc Hx].
    split; [exact Hc | split; [exact Hx|]].
    specialize (S Hc w). now rewrite H in S.
  - intros Hc. exact (S Hc w).
Qed.

Lemma exceptions_leave_through_the_check_witness :
  match @member sample_platform sample_jvm
          (m_enter (ep_invokeV (KValue TObject) 5 64 [])) detached_world with
  | Returned _ w' | Thrown _ w' => pending w' = None
  | Fatal _ => True
  end.
Proof.
  exact (proj2 (@exceptions_leave_through_the_check sample_platform sample_jvm
                  (m_enter (ep_invokeV (KValue TObject) 5 64 [])) detached_world)
           eq_refl).
Defined.

(** ** Following a computation in a runtime that is ready *)

Lemma follows_start w j : ready w j -> follows w j [] (pending w) w.
Proof.
  intros H. split; [exact H | split; [now rewrite app_nil_r | split; reflexivity]].
Qed.

Lemma managed_pending c r w :
  managed_call c -> pending (effect c r w) = raised r (pending w).
Proof.
  intros (H1 & H2 & H3). unfold effect, raised.
  destruct c; try (destruct (rthrows r); reflexivity);
    try (exfalso; apply H1; exact I);
    try (exfalso; apply H2; exact I).
  exfalso. eapply H3. reflexivity.
Qed.

Lemma follows_managed w j l p w1 c :
  follows w j l p w1 -> managed_call c ->
  let r := vm_reply w (trace w ++ l)%list c in
  exists w2,
    JNIEnv.call env_thread c w1 = Returned (rvalue r) w2 /\
    follows w j (l ++ [c]) (raised r p) w2.
Proof.
  intros (Hr & T & R & Hp) Hc r.
  destruct Hc as (H1 & H2 & H3).
  destruct (call_ready c w1 j Hr H1 H3) as [E Hr2].
  assert (Ea : answer c w1 = r)
    by (rewrite (answer_reply c w1 H1 H2), R, T; reflexivity).
  rewrite Ea in E, Hr2. eexists. split; [exact E|].
  split; [exact Hr2 | split; [|split]].
  - now rewrite native_trace, T, app_assoc.
  - now rewrite step_reply.
  - cbn [pending log]. rewrite managed_pending by (split; [|split]; assumption).
    now rewrite Hp.
Qed.

Lemma follows_scoped {P : Platform} {A} (body : Env -> M A) w j l p w1 :
  follows w j l p w1 ->
  exists w2,
    Jvm.Env.scoped default_daemon body w1 = body (mkEnv env_thread false) w2 /\
    follows w j (l ++ [GetEnv (version j)]) p w2.
Proof.
  intros (Hr & T & R & Hp).
  destruct (scoped_ready default_daemon body w1 j Hr) as [E Hr2].
  eexists. split; [exact E|].
  split; [exact Hr2 | split; [|split]]; cbn.
  - now rewrite T, app_assoc.
  - exact R.
  - exact Hp.
Qed.

Lemma FindClass_managed n : managed_call (FindClass n).
Proof. split; [|split]; try (intros H; exact H). discriminate. Qed.

Lemma follows_findClass {P : Platform} clazz w j l p w1 :
  follows w j l p w1 ->
  let c := FindClass (name clazz) in
  let r := vm_reply w (trace w ++ l ++ [GetEnv (version j)])%list c in
  exists w2,
    Jvm.findClass clazz w1
    = (if rvalue r =? NULL then Fatal w2 else Returned (rvalue r) w2) /\
    follows w j (l ++ [GetEnv (version j); c]) (raised r p) w2.
Proof.
  intros Hf c r. unfold Jvm.findClass.
  destruct (follows_scoped
              (fun g => x <- JNIEnv.call (env g) (FindClass (name clazz)) ;;
                        CHECK_NOTNULL x) w j l p w1 Hf) as (w2 & -> & Hf2).
  cbn [env].
  destruct (follows_managed w j _ p w2 c Hf2 (FindClass_managed _)) as (w3 & E & Hf3).
  cbv zeta in E, Hf3. fold r in E, Hf3. rewrite <- app_assoc in Hf3. cbn [app] in Hf3.
  exists w3. split; [|exact Hf3].
  rewrite (bind_step _ _ _ _ _ E). unfold CHECK_NOTNULL.
  destruct (rvalue r =? NULL); reflexivity.
Qed.

Lemma follows_check_none self w j l w1 :
  follows w j l None w1 ->
  exists w2,
    Jvm.check self env_thread w1 = Returned tt w2 /\
    follows w j (l ++ [ExceptionCheck]) None w2.
Proof.
  intros (Hr & T & R & Hp). rewrite (check_no_pending self w1 Hp).
  eexists. split; [reflexivity|].
  split; [exact Hr | split; [|split]]; cbn.
  - now rewrite T, <- app_assoc.
  - exact R.
  - exact Hp.
Qed.

Lemma follows_check_some self w j l x w1 :
  follows w j l (Some x) w1 ->
  (exceptions self = true ->
   exists w2,
     Jvm.check self env_thread w1 = Thrown (mkThrowable x) w2 /\
     follows w j (l ++ [ExceptionCheck; ExceptionOccurred; ExceptionClear]) None w2) /\
  (exceptions self = false ->
   exists w2,
     Jvm.check self env_thread w1 = Fatal w2 /\
     trace w2 = (trace w ++ l ++ [ExceptionCheck; ExceptionDescribe])%list).
Proof.
  intros (Hr & T & R & Hp).
  unfold Jvm.check, JNIEnv.call, bind, native_call, answer, effect.
  cbn. rewrite Hp. cbn. split; intros ->; cbn.
  - rewrite Hp. eexists. split; [reflexivity|].
    split; [exact Hr | split; [|split]]; cbn.
    + rewrite T, <- !app_assoc. reflexivity.
    + exact R.
    + reflexivity.
  - eexists. split; [reflexivity|]. cbn. rewrite T, <- !app_assoc. reflexivity.
Qed.

Lemma managed_lookup (isStatic : bool) cls n sig :
  managed_call (if isStatic then GetStaticMethodID cls n sig else GetMethodID cls n sig).
Proof.
  destruct isStatic; (split; [|split]); try (intros H; exact H); discriminate.
Qed.

Lemma follows_findMethod {P : Platform} clazz n returnType argTypes (isStatic : bool)
    w j l p w1 :
  follows w j l p w1 ->
  let G := GetEnv (version j) in
  let cF := FindClass (name clazz) in
  let r1 := vm_reply w (trace w ++ l ++ [G; G])%list cF in
  let sig := signature_stream returnType argTypes in
  let cM := if isStatic then GetStaticMethodID (rvalue r1) n sig
            else GetMethodID (rvalue r1) n sig in
  let r2 := vm_reply w (trace w ++ l ++ [G; G; cF])%list cM in
  rvalue r1 <> NULL ->
  exists w2,
    Jvm.findMethod clazz n returnType argTypes isStatic w1
    = (if rvalue r2 =? NULL then Fatal w2 else Returned (rvalue r2) w2) /\
    follows w j (l ++ [G; G; cF; cM]) (raised r2 (raised r1 p)) w2.
Proof.
  intros Hf G cF r1 sig cM r2 Hcls. unfold Jvm.findMethod.
  match goal with
  | |- context [Jvm.Env.scoped _ ?b w1] =>
      destruct (follows_scoped b w j l p w1 Hf) as (wa & -> & Hfa)
  end.
  cbn [env]. cbv zeta. fold G in Hfa. fold sig.
  destruct (follows_findClass clazz w j _ p wa Hfa) as (wb & Efc & Hfb).
  cbv zeta in Efc, Hfb. fold G cF in Efc, Hfb.
  rewrite <- !app_assoc in Efc, Hfb. cbn [app] in Efc, Hfb. fold r1 in Efc, Hfb.
  apply Z.eqb_neq in Hcls. rewrite Hcls in Efc.
  destruct (follows_managed w j _ _ wb cM Hfb (managed_lookup isStatic _ _ _))
    as (wc & Ec & Hfc).
  cbv zeta in Ec, Hfc. fold r2 in Ec, Hfc.
  rewrite <- !app_assoc in Hfc. cbn [app] in Hfc.
  exists wc. split; [|exact Hfc].
  assert (Eb : (if isStatic
                then cls0 <- Jvm.findClass clazz ;;
                     JNIEnv.call env_thread (GetStaticMethodID cls0 n sig)
                else cls0 <- Jvm.findClass clazz ;;
                     JNIEnv.call env_thread (GetMethodID cls0 n sig)) wa
               = Returned (rvalue r2) wc).
  { subst cM. destruct isStatic; rewrite (bind_step _ _ _ _ _ Efc); exact Ec. }
  rewrite (bind_step _ _ _ _ _ Eb). unfold CHECK_NOTNULL.
  destruct (rvalue r2 =? NULL); reflexivity.
Qed.

(** ** Calls that are not checked *)

Lemma scoped_call_ready {P : Platform} c w j :
  ready w j -> managed_call c ->
  let t := (trace w ++ [GetEnv (version j)])%list in
  let r := vm_reply w t c in
  exists w',
    Jvm.Env.scoped default_daemon (fun g => JNIEnv.call (env g) c) w
    = Returned (rvalue r) w' /\
    trace w' = (t ++ [c])%list /\ pending w' = raised r (pending w).
Proof.
  intros Hr Hc t r.
  destruct (follows_scoped (fun g => JNIEnv.call (env g) c) w j [] (pending w) w
              (follows_start w j Hr)) as (w1 & -> & Hf1).
  cbn [env app] in *.
  destruct (follows_managed w j _ _ w1 c Hf1 Hc) as (w2 & E & (_ & T & _ & Hp)).
  cbv zeta in E, T, Hp. fold t r in E, Hp.
  exists w2. split; [exact E | split; [|exact Hp]].
  rewrite T. unfold t. now rewrite <- app_assoc.
Qed.

(** X11.  [string], [newGlobalRef] and [deleteGlobalRef] do not run the
    exception check.  In a runtime that is ready they return what the
    native call answered, and an exception that the call raised, or one
    that was pending before, is still pending when they return, in either
    mode. *)
Theorem unchecked_calls_keep_exception {P : Platform} (w : World) (j : Jvm) :
  ready w j ->
  let t := (trace w ++ [GetEnv (version j)])%list in
  (forall s,
     let r := vm_reply w t (NewStringUTF s) in
     exists w', Jvm.string_ s w = Returned (rvalue r) w' /\
                trace w' = (t ++ [NewStringUTF s])%list /\
                pending w' = raised r (pending w)) /\
  (forall o,
     let r := vm_reply w t (NewGlobalRef o) in
     exists w', Jvm.newGlobalRef o w = Returned (rvalue r) w' /\
                trace w' = (t ++ [NewGlobalRef o])%list /\
                pending w' = raised r (pending w)) /\
  (forall o,
     o <> NULL ->
     let r := vm_reply w t (DeleteGlobalRef o) in
     exists w', Jvm.deleteGlobalRef o w = Returned tt w' /\
                trace w' = (t ++ [DeleteGlobalRef o])%list /\
                pending w' = raised r (pending w)).
Proof.
  intros Hr t. split; [|split].
  - intros s. apply (scoped_call_ready (NewStringUTF s) w j Hr).
    split; [|split]; try (intros H; exact H). discriminate.
  - intros o. apply (scoped_call_ready (NewGlobalRef o) w j Hr).
    split; [|split]; try (intros H; exact H). discriminate.
  - intros o Ho r. unfold Jvm.deleteGlobalRef.
    apply Z.eqb_neq in Ho. rewrite Ho. cbn [negb].
    destruct (follows_scoped
                (fun g => JNIEnv.call (env g) (DeleteGlobalRef o) ;; ret tt)
                w j [] (pending w) w (follows_start w j Hr)) as (w1 & -> & Hf1).
    cbn [env app] in *.
    assert (Hm : managed_call (DeleteGlobalRef o))
      by (split; [|split]; try (intros H; exact H); discriminate).
    destruct (follows_managed w j _ _ w1 _ Hf1 Hm) as (w2 & E & (_ & T & _ & Hp)).
    cbv zeta in E, T, Hp. fold t r in E, Hp.
    exists w2. rewrite (bind_step _ _ _ _ _ E).
    split; [reflexivity | split; [|exact Hp]].
    rewrite T. unfold t. now rewrite <- app_assoc.
Qed.

Lemma unchecked_calls_keep_exception_witness :
  exists w', @Jvm.string_ sample_platform "abc" pending_world = Returned 0 w' /\
             trace w' = [GetEnv 65542; NewStringUTF "abc"] /\
             pending w' = Some 77.
Proof.
  refine (proj1 (@unchecked_calls_keep_exception sample_platform pending_world sample_jvm _)
            "abc").
  repeat split; discriminate.
Defined.

(** ** Lookups *)

Lemma findClass_Returned {P : Platform} clazz w cls w' :
  Jvm.findClass clazz w = Returned cls w' -> cls <> NULL.
Proof.
  unfold Jvm.findClass. intros H.
  apply scoped_Returned in H as (g & w1 & w2 & _ & H & _).
  apply bind_Returned in H as (x & w3 & _ & H).
  apply CHECK_NOTNULL_Returned in H as (-> & H & _). exact H.
Qed.

(** X12.  [findClass] never returns a null handle and never throws, in
    either mode: in a runtime that is ready it returns the handle that
    [FindClass] answered, and when that answer is null the process
    terminates.  It does not run the exception check, so that an exception
    raised by the lookup is still pending when it returns. *)
Theorem findClass_found_or_fatal {P : Platform} (clazz : Class) (w : World) :
  (forall cls w', Jvm.findClass clazz w = Returned cls w' -> cls <> NULL) /\
  (forall t w', Jvm.findClass clazz w <> Thrown t w') /\
  (forall j,
     ready w j ->
     let t := (trace w ++ [GetEnv (version j)])%list in
     let r := vm_reply w t (FindClass (name clazz)) in
     exists w',
       Jvm.findClass clazz w
       = (if rvalue r =? NULL then Fatal w' else Returned (rvalue r) w') /\
       trace w' = (t ++ [FindClass (name clazz)])%list /\
       pending w' = raised r (pending w)).
Proof.
  split; [apply findClass_Returned | split; [apply never_throws_findClass|]].
  intros j Hr t r.
  destruct (follows_findClass clazz w j [] (pending w) w (follows_start w j Hr))
    as (w' & E & (_ & T & _ & Hp)).
  cbv zeta in E, T, Hp. cbn [app] in E, T, Hp. fold t r in E, Hp.
  exists w'. split; [exact E | split; [|exact Hp]].
  rewrite T. unfold t. now rewrite <- app_assoc.
Qed.

Lemma findClass_found_or_fatal_witness :
  exists w',
    @Jvm.findClass sample_platform (ClassOps.named "java/lang/String") live_world
    = Returned 512 w' /\
    trace w' = [GetEnv 65542; FindClass "java/lang/String"] /\
    pending w' = None.
Proof.
  refine (proj2 (proj2 (@findClass_found_or_fatal sample_platform
                          (ClassOps.named "java/lang/String") live_world))
            sample_jvm _).
  repeat split; discriminate.
Defined.

Lemma encoded_stream s :
  signature_stream (ms_returnType s) (ms_parameters s) = encoded s.
Proof. apply signature_stream_eq. Qed.

Lemma find_eq {P : Platform} (isStatic : bool) s w :
  find isStatic s w
  = (id <- Jvm.findMethod (ms_clazz s) (ms_name s) (ms_returnType s)
             (ms_parameters s) isStatic ;;
     ret (mkMethod (ms_clazz s) id)) w.
Proof. destruct isStatic; reflexivity. Qed.

(** X13.  [findMethod] and [findStaticMethod] differ in the lookup call
    only: the first issues [GetMethodID], the second [GetStaticMethodID],
    both with the name of the signature and its encoded string, on the
    class found for the owning type.  Neither throws and neither returns a
    null identifier: in a runtime that is ready, with the class found, the
    handle pairs the owning type with the identifier answered, and when
    that identifier is null the process terminates. *)
Theorem method_lookup_found_or_fatal {P : Platform} (isStatic : bool)
    (s : MethodSignature) (w : World) :
  evolves (fun c => attachment_call c \/ c = FindClass (name (ms_clazz s)) \/
                    exists cls, c = lookup_call isStatic s cls)
          w (final (find isStatic s w)) /\
  (forall m w', find isStatic s w = Returned m w' ->
                method_clazz m = ms_clazz s /\ method_id m <> NULL) /\
  (forall t w', find isStatic s w <> Thrown t w') /\
  (forall j,
     ready w j ->
     let t := (trace w ++ [GetEnv (version j); GetEnv (version j)])%list in
     let cF := FindClass (name (ms_clazz s)) in
     let cls := rvalue (vm_reply w t cF) in
     let id := rvalue (vm_reply w (t ++ [cF]) (lookup_call isStatic s cls)) in
     cls <> NULL ->
     exists w',
       find isStatic s w
       = (if id =? NULL then Fatal w' else Returned (mkMethod (ms_clazz s) id) w') /\
       trace w' = (t ++ [cF; lookup_call isStatic s cls])%list).
Proof.
  split; [|split; [|split]].
  - rewrite find_eq.
    apply (respects_bind (fun c => attachment_call c \/ c = FindClass (name (ms_clazz s)) \/
                                   exists cls, c = lookup_call isStatic s cls)).
    + apply respects_findMethod.
      * intros options v. left. exact I.
      * intros c Hc. left. destruct c; try contradiction; exact I.
      * right. left. reflexivity.
      * intros cls. right. right. exists cls. unfold lookup_call.
        rewrite encoded_stream. reflexivity.
    + intros id. apply respects_ret.
  - intros m w'. rewrite find_eq. intros H.
    apply bind_Returned in H as (id & w1 & Hm & H). inversion H; subst. cbn.
    apply findMethod_Returned in Hm as (Hn & _). auto.
  - intros t w'. rewrite find_eq. revert w t w'.
    apply never_throws_map, never_throws_findMethod.
  - intros j Hr t cF cls id Hcls. rewrite find_eq.
    destruct (follows_findMethod (ms_clazz s) (ms_name s) (ms_returnType s)
                (ms_parameters s) isStatic w j [] (pending w) w
                (follows_start w j Hr) Hcls) as (w' & E & (_ & T & _)).
    cbv zeta in E, T. cbn [app] in E, T. rewrite encoded_stream in E, T.
    fold t cF cls in E, T. fold (lookup_call isStatic s cls) in E, T.
    fold t in E. change (trace w ++ [GetEnv (version j); GetEnv (version j); cF])%list
      with (trace w ++ [GetEnv (version j); GetEnv (version j)] ++ [cF])%list in E.
    rewrite app_assoc in E. fold t id in E.
    exists w'. split.
    + unfold bind. rewrite E. destruct (id =? NULL); reflexivity.
    + rewrite T. unfold t. now rewrite <- app_assoc.
Qed.

Lemma method_lookup_found_or_fatal_witness :
  exists w',
    @find sample_platform true
      (built (ClassOps.named "java/lang/Math") "abs" [ClassOps.INT] ClassOps.INT)
      live_world
    = Returned (mkMethod (ClassOps.named "java/lang/Math") 64) w' /\
    trace w' = [GetEnv 65542; GetEnv 65542; FindClass "java/lang/Math";
                GetStaticMethodID 512 "abs" "(I)I"].
Proof.
  refine (proj2 (proj2 (proj2
    (@method_lookup_found_or_fatal sample_platform true
       (built (ClassOps.named "java/lang/Math") "abs" [ClassOps.INT] ClassOps.INT)
       live_world))) sample_jvm _ _).
  - repeat split; discriminate.
  - discriminate.
Defined.

(** ** Entry points in a runtime that is ready *)

Lemma underlying_managed ep cls : managed_call (underlying ep cls).
Proof.
  destruct ep as [k ? ? ?|k ? ? ?| | | |];
    (split; [|split]); try (intros H; exact H); discriminate.
Qed.

Lemma follows_resolve {P : Platform} ep w j :
  ready w j -> class_found w j ep ->
  forall w1,
    follows w j [GetEnv (version j)] (pending w) w1 ->
    exists w2,
      resolve ep w1 = Returned (rvalue (class_reply w j ep)) w2 /\
      follows w j (entry_calls j ep) (raised (class_reply w j ep) (pending w)) w2.
Proof.
  intros Hr Hfound w1 Hf. unfold resolve, class_reply, entry_calls, class_found in *.
  unfold class_reply in Hfound.
  destruct (looked_up ep) as [c|].
  - destruct Hfound as [Hf0|Hn]; [discriminate|].
    destruct (follows_findClass c w j _ _ w1 Hf) as (w2 & E & Hf2).
    cbv zeta in E, Hf2. cbn [app] in E, Hf2.
    apply Z.eqb_neq in Hn. rewrite Hn in E. exists w2. split; assumption.
  - exists w1. split; [reflexivity | exact Hf].
Qed.

Lemma enter_ready {P : Platform} self ep w j :
  ready w j -> class_found w j ep ->
  let r := call_reply w j ep in
  let l := (entry_calls j ep ++ [underlying ep (rvalue (class_reply w j ep))])%list in
  exists w3,
    follows w j l (raised r (raised (class_reply w j ep) (pending w))) w3 /\
    enter self ep w = (Jvm.check self env_thread ;; ret (decoded ep (rvalue r))) w3.
Proof.
  intros Hr Hfound r l. rewrite enter_factor.
  match goal with
  | |- context [Jvm.Env.scoped _ ?b w] =>
      destruct (follows_scoped b w j [] (pending w) w (follows_start w j Hr))
        as (w1 & -> & Hf1)
  end.
  cbn [env app] in *.
  destruct (follows_resolve ep w j Hr Hfound w1 Hf1) as (w2 & E2 & Hf2).
  rewrite (bind_step _ _ _ _ _ E2).
  destruct (follows_managed w j _ _ w2 _ Hf2
              (underlying_managed ep (rvalue (class_reply w j ep))))
    as (w3 & E3 & Hf3).
  cbv zeta in E3, Hf3. fold (call_reply w j ep) in E3, Hf3. fold r l in E3, Hf3.
  rewrite (bind_step _ _ _ _ _ E3). exists w3. split; [exact Hf3 | reflexivity].
Qed.

(** X14.  An entry point in a runtime that is ready, with its class found.
    The exception that counts is the one raised by the native call, else
    the one raised by the class lookup, else the one that was already
    pending when the entry point was entered.  With none of them the entry
    point returns the decoded answer of its native call and has issued its
    queries, the class lookup, the call and one [ExceptionCheck].  With
    such an exception it throws it in translate mode, also when its own
    call raised nothing, and terminates the process in abort mode. *)
Theorem enter_in_ready_world {P : Platform} (self : Jvm) (ep : EntryPoint)
    (w : World) (j : Jvm) :
  ready w j -> class_found w j ep ->
  let r := call_reply w j ep in
  let l := (entry_calls j ep ++ [underlying ep (rvalue (class_reply w j ep))])%list in
  let p := raised r (raised (class_reply w j ep) (pending w)) in
  (p = None ->
   exists w', enter self ep w = Returned (decoded ep (rvalue r)) w' /\
              trace w' = (trace w ++ l ++ [ExceptionCheck])%list /\
              pending w' = None) /\
  (forall x, p = Some x ->
     (exceptions self = true ->
      exists w', enter self ep w = Thrown (mkThrowable x) w' /\
                 trace w' = (trace w ++ l ++ [ExceptionCheck; ExceptionOccurred;
                                              ExceptionClear])%list /\
                 pending w' = None) /\
     (exceptions self = false ->
      exists w', enter self ep w = Fatal w' /\
                 trace w' = (trace w ++ l ++ [ExceptionCheck; ExceptionDescribe])%list)).
Proof.
  intros Hr Hfound r l p.
  destruct (enter_ready self ep w j Hr Hfound) as (w3 & Hf & E).
  cbv zeta in Hf, E. fold r l p in Hf, E. rewrite E. unfold bind. split.
  - intros Hp. rewrite Hp in Hf.
    destruct (follows_check_none self w j l w3 Hf) as (w4 & -> & (_ & T & _ & Hp4)).
    exists w4. split; [reflexivity | split; [exact T | exact Hp4]].
  - intros x Hp. rewrite Hp in Hf.
    destruct (follows_check_some self w j l x w3 Hf) as [Ht Ha]. split; intros Hx.
    + destruct (Ht Hx) as (w4 & -> & (_ & T & _ & Hp4)).
      exists w4. split; [reflexivity | split; [exact T | exact Hp4]].
    + destruct (Ha Hx) as (w4 & -> & T). exists w4. split; [reflexivity | exact T].
Qed.

(** A method that raises nothing, entered while an exception is pending. *)
Lemma enter_in_ready_world_witness :
  exists w',
    @enter sample_platform sample_jvm
      (ep_invokeStaticV (KValue TBoolean) (ClassOps.named "java/lang/Math") 64 [1])
      pending_world
    = Thrown (mkThrowable 77) w' /\
    trace w' = [GetEnv 65542; GetEnv 65542; FindClass "java/lang/Math";
                CallStaticMethodV (KValue TBoolean) 512 64 [1];
                ExceptionCheck; ExceptionOccurred; ExceptionClear] /\
    pending w' = None.
Proof.
  refine (proj1 (proj2
    (@enter_in_ready_world sample_platform sample_jvm
       (ep_invokeStaticV (KValue TBoolean) (ClassOps.named "java/lang/Math") 64 [1])
       pending_world sample_jvm _ _) 77 eq_refl) eq_refl).
  - repeat split; discriminate.
  - right. discriminate.
Defined.

(** X15.  [findStaticField] in a runtime that is ready, with its class
    found.  It runs the exception check and has no null check: when no
    exception was raised or pending it returns the identifier that
    [GetStaticFieldID] answered, a null one included; with an exception it
    throws it in translate mode and terminates the process in abort
    mode. *)
Theorem findStaticField_in_ready_world {P : Platform} (self : Jvm) (clazz : Class)
    (n : string) (w : World) (j : Jvm) :
  ready w j ->
  let G := GetEnv (version j) in
  let cF := FindClass (name clazz) in
  let r1 := vm_reply w (trace w ++ [G; G])%list cF in
  let c := GetStaticFieldID (rvalue r1) n (ClassOps.signature clazz) in
  let r := vm_reply w (trace w ++ [G; G; cF])%list c in
  let p := raised r (raised r1 (pending w)) in
  rvalue r1 <> NULL ->
  (p = None ->
   exists w', Jvm.findStaticField self clazz n w = Returned (mkField clazz (rvalue r)) w' /\
              trace w' = (trace w ++ [G; G; cF; c; ExceptionCheck])%list /\
              pending w' = None) /\
  (forall x, p = Some x ->
     (exceptions self = true ->
      exists w', Jvm.findStaticField self clazz n w = Thrown (mkThrowable x) w' /\
                 trace w' = (trace w ++ [G; G; cF; c; ExceptionCheck; ExceptionOccurred;
                                         ExceptionClear])%list /\
                 pending w' = None) /\
     (exceptions self = false ->
      exists w', Jvm.findStaticField self clazz n w = Fatal w' /\
                 trace w' = (trace w ++ [G; G; cF; c; ExceptionCheck;
                                         ExceptionDescribe])%list)).
Proof.
  intros Hr G cF r1 c r p Hcls. unfold Jvm.findStaticField.
  match goal with
  | |- context [Jvm.Env.scoped _ ?b w] =>
      destruct (follows_scoped b w j [] (pending w) w (follows_start w j Hr))
        as (w1 & -> & Hf1)
  end.
  cbn [env app] in *. fold G in Hf1.
  destruct (follows_findClass clazz w j _ _ w1 Hf1) as (w2 & E2 & Hf2).
  cbv zeta in E2, Hf2. cbn [app] in E2, Hf2. fold G cF r1 in E2, Hf2.
  apply Z.eqb_neq in Hcls. rewrite Hcls in E2.
  rewrite (bind_step _ _ _ _ _ E2).
  assert (Hm : managed_call c)
    by (split; [|split]; try (intros H; exact H); discriminate).
  destruct (follows_managed w j _ _ w2 c Hf2 Hm) as (w3 & E3 & Hf3).
  cbv zeta in E3, Hf3. fold r p in E3, Hf3. cbn [app] in Hf3.
  rewrite (bind_step _ _ _ _ _ E3). unfold bind. split.
  - intros Hp. rewrite Hp in Hf3.
    destruct (follows_check_none self w j _ w3 Hf3) as (w4 & -> & (_ & T & _ & Hp4)).
    exists w4. split; [reflexivity | split; [exact T | exact Hp4]].
  - intros x Hp. rewrite Hp in Hf3.
    destruct (follows_check_some self w j _ x w3 Hf3) as [Ht Ha]. split; intros Hx.
    + destruct (Ht Hx) as (w4 & -> & (_ & T & _ & Hp4)).
      exists w4. split; [reflexivity | split; [exact T | exact Hp4]].
    + destruct (Ha Hx) as (w4 & -> & T). exists w4. split; [reflexivity | exact T].
Qed.

Lemma findStaticField_in_ready_world_witness :
  exists w',
    @Jvm.findStaticField sample_platform sample_jvm
      (ClassOps.named "java/util/Optional") "EMPTY" live_world
    = Returned (mkField (ClassOps.named "java/util/Optional") 33) w' /\
    trace w' = [GetEnv 65542; GetEnv 65542; FindClass "java/util/Optional";
                GetStaticFieldID 512 "EMPTY" "Ljava/util/Optional;"; ExceptionCheck] /\
    pending w' = None.
Proof.
  refine (proj1
    (@findStaticField_in_ready_world sample_platform sample_jvm
       (ClassOps.named "java/util/Optional") "EMPTY" live_world sample_jvm _ _) eq_refl).
  - repeat split; discriminate.
  - discriminate.
Defined.

(** ** The mode of the instance *)

(** X16.  The instance that a successful [create] returns holds the
    version and the exception mode given to that call, and it is the
    instance for the rest of the process: after any further calls, later
    calls of [create] with other arguments included, [get] returns this
    very instance. *)
Theorem mode_is_fixed_at_creation {P : Platform} (options : list string) (v : Z)
    (exc : bool) (w : World) (j : Jvm) (w1 : World) (calls : list Call) :
  Jvm.create options v exc w = Returned (TrySome j) w1 ->
  version j = v /\ exceptions j = exc /\
  let wf := snd (run calls w1) in
  instance wf = Some j /\ Jvm.get wf = Returned j wf.
Proof.
  intros H. pose proof (create_success _ _ _ _ _ _ H) as Hi.
  assert (Hj : version j = v /\ exceptions j = exc).
  { destruct (instance w) as [i|] eqn:Ei.
    - rewrite (create_existing _ _ _ _ i Ei) in H. discriminate.
    - rewrite (create_fresh _ _ _ _ Ei) in H. cbv zeta in H.
      destruct (_ =? JNI_ERR); [discriminate|]. inversion H; subst. split; reflexivity. }
  destruct Hj as [Hv Hx]. split; [exact Hv | split; [exact Hx|]].
  intros wf. destruct (registered_run calls w1) as [[Hk _]|(Hn & _)]; [|congruence].
  fold wf in Hk. rewrite Hi in Hk. split; [exact Hk | now apply get_instance].
Qed.

Lemma mode_is_fixed_at_creation_witness :
  let wf := snd (@run sample_platform
                   [call_create ["-Xint"] 65540 false; call_get]
                   (add_atexit deleter
                      (set_instance (Some sample_jvm)
                         (log (JNI_CreateJavaVM [] 65542)
                            (set_attached true fresh_world))))) in
  instance wf = Some sample_jvm /\ @Jvm.get sample_platform wf = Returned sample_jvm wf.
Proof.
  exact (proj2 (proj2
    (@mode_is_fixed_at_creation sample_platform [] 65542 true fresh_world sample_jvm
       _ [call_create ["-Xint"] 65540 false; call_get] eq_refl))).
Defined.

(** ** Static fields *)






(** In the sample runtime the lookup of [EMPTY] on [java/util/Optional]
    returns because the class found declares the field with its own type,
    and the lookup of [out] on [java/lang/System] cannot return. *)
Example findStaticField_only_own_type :
  (exists f w',
     @Jvm.findStaticField sample_platform sample_jvm
       (ClassOps.named "java/util/Optional") "EMPTY" live_world = Returned f w') /\
  ~ (exists f w',
       @Jvm.findStaticField sample_platform sample_jvm
         (ClassOps.named "java/lang/System") "out" live_world = Returned f w').
Proof.
  split.
  - do 2 eexists. vm_compute. reflexivity.
  - intros (f & w' & H). vm_compute in H. discriminate.
Qed.
